(** * Maintenance calorie calculator: a shallow embedding of
      [calorie_calculator.py] and the properties of its two functions.

    The Python module holds one global dict ([ACTIVITY_FACTORS]) and two
    functions, [calculate_bmr] and [calculate_tdee], plus a demonstration
    block run under [__main__].

    - [str] values are Rocq strings, one [ascii] per code point below 256;
    - [float] values are IEEE 754 binary64 numbers, taken from the Standard
      Library's executable specification [SpecFloat] at precision 53 and
      maximal exponent 1024;
    - [int] values are unbounded integers ([Z]);
    - a raised exception is a value of [exn], and the module's global is
      threaded through every call as an explicit store. *)

From Stdlib Require Import ZArith Lia Bool List String Ascii SpecFloat DecimalString.
Import ListNotations.

Local Open Scope string_scope.
Local Open Scope Z_scope.

(** ** Strings: the [str] methods the module calls *)

Module PyStr.

(** Code points with a lowercase partner inside Latin-1: [A-Z], and
    U+00C0..U+00DE without the multiplication sign U+00D7. *)
Definition is_upper (c : ascii) : bool :=
  let n := N_of_ascii c in
  (((65 <=? n) && (n <=? 90)) ||
   ((192 <=? n) && (n <=? 222) && negb (n =? 215)))%N.

(** Code points whose uppercase partner is inside Latin-1: [a-z], and
    U+00E0..U+00FE without the division sign U+00F7. *)
Definition is_lower (c : ascii) : bool :=
  let n := N_of_ascii c in
  (((97 <=? n) && (n <=? 122)) ||
   ((224 <=? n) && (n <=? 254) && negb (n =? 247)))%N.

Definition lower_char (c : ascii) : ascii :=
  if is_upper c then ascii_of_N (N_of_ascii c + 32) else c.

Definition upper_char (c : ascii) : ascii :=
  if is_lower c then ascii_of_N (N_of_ascii c - 32) else c.

(** [s.lower()] *)
Fixpoint lower (s : string) : string :=
  match s with
  | EmptyString => EmptyString
  | String c s' => String (lower_char c) (lower s')
  end.

(** [s.replace(old, new)] for one-character [old] and [new], the only
    form the module uses. *)
Fixpoint replace (old new : ascii) (s : string) : string :=
  match s with
  | EmptyString => EmptyString
  | String c s' =>
      String (if Ascii.eqb c old then new else c) (replace old new s')
  end.

(** [s.capitalize()]: first character uppercased, the rest lowercased.
    The three code points below 256 whose uppercase lies beyond (U+00B5,
    U+00DF, U+00FF) are left as they are; the module capitalizes ASCII
    literals only. *)
Definition capitalize (s : string) : string :=
  match s with
  | EmptyString => EmptyString
  | String c s' => String (upper_char c) (lower s')
  end.

(** [sep.join(l)] *)
Definition join (sep : string) (l : list string) : string :=
  String.concat sep l.

(** [x in l] for a list of strings. *)
Fixpoint mem (x : string) (l : list string) : bool :=
  match l with
  | [] => false
  | y :: l' => String.eqb x y || mem x l'
  end.

(** [str(n)] for an [int]. *)
Definition of_int (n : Z) : string :=
  NilZero.string_of_int (Z.to_int n).

Definition space : ascii := " "%char.
Definition underscore : ascii := "_"%char.
Definition newline : string := String (ascii_of_N 10) EmptyString.

(** Whether [s] ends with the character [c]; no method the module calls,
    only a way to say what a last character rules out. *)
Fixpoint ends_with (c : ascii) (s : string) : bool :=
  match s with
  | EmptyString => false
  | String a EmptyString => Ascii.eqb a c
  | String _ s' => ends_with c s'
  end.

End PyStr.

(** ** Numbers: [int], [float] and the arithmetic between them *)

Module PyNum.

Definition prec : Z := 53.
Definition emax : Z := 1024.

(** A binary64 number. *)
Definition float := spec_float.

Definition fmul : float -> float -> float := SFmul prec emax.
Definition fadd : float -> float -> float := SFadd prec emax.
Definition fsub : float -> float -> float := SFsub prec emax.
Definition fdiv : float -> float -> float := SFdiv prec emax.

(** [x <= y] on floats; false as soon as one side is a NaN. *)
Definition fle : float -> float -> bool := SFleb.

(** A float stands for an actual binary64 number when its mantissa and
    exponent are in canonical form. *)
Definition well_formed (x : float) : bool := valid_binary prec emax x.

(** The integer [n] rounded to the nearest binary64 number, ties to even;
    an infinity when [n] is out of range. *)
Definition round_int (n : Z) : float := binary_normalize prec emax n 0 false.

(** The float a decimal literal with digits [n] and [k] digits after the
    point denotes: the quotient [n / 10^k] rounded once.  Both operands
    are exact in binary64 for the literals of this module. *)
Definition decimal (n : Z) (k : Z) : float :=
  fdiv (round_int n) (round_int (10 ^ k)).

Definition zero : float := S754_zero false.

Inductive exn : Type :=
| ValueError (msg : string)
| OverflowError (msg : string)
| KeyError (key : string).

(** What evaluating an expression gives: a value or a raised exception. *)
Inductive outcome (A : Type) : Type :=
| Return (a : A)
| Raise (e : exn).
Arguments Return {A} a.
Arguments Raise {A} e.

Definition obind {A B} (o : outcome A) (k : A -> outcome B) : outcome B :=
  match o with
  | Return a => k a
  | Raise e => Raise e
  end.

(** A Python number: an [int] or a [float]. *)
Inductive num : Type :=
| PyInt (n : Z)
| PyFloat (x : float).

(** Conversion of an [int] operand to [float] in mixed arithmetic. *)
Definition float_of_int (n : Z) : outcome float :=
  match round_int n with
  | S754_infinity _ => Raise (OverflowError "int too large to convert to float")
  | x => Return x
  end.

Definition as_float (v : num) : outcome float :=
  match v with
  | PyInt n => float_of_int n
  | PyFloat x => Return x
  end.

(** A binary operator: exact on two ints, otherwise both operands are
    taken as floats (left one first) and the float operation applies. *)
Definition binop (iop : Z -> Z -> Z) (fop : float -> float -> float)
           (a b : num) : outcome num :=
  match a, b with
  | PyInt m, PyInt n => Return (PyInt (iop m n))
  | _, _ =>
      obind (as_float a) (fun x =>
      obind (as_float b) (fun y =>
      Return (PyFloat (fop x y))))
  end.

Definition mul : num -> num -> outcome num := binop Z.mul fmul.
Definition add : num -> num -> outcome num := binop Z.add fadd.
Definition sub : num -> num -> outcome num := binop Z.sub fsub.

(** [math.ceil(x)] on a float. *)
Definition ceil (x : float) : outcome Z :=
  match x with
  | S754_zero _ => Return 0
  | S754_finite s m e =>
      let v := if s then Z.neg m else Z.pos m in
      Return (if 0 <=? e then v * 2 ^ e else - ((- v) / 2 ^ (- e)))
  | S754_infinity _ =>
      Raise (OverflowError "cannot convert float infinity to integer")
  | S754_nan => Raise (ValueError "cannot convert float NaN to integer")
  end.

(** The integers that convert to a float: those that do not round to an
    infinity. *)
Definition convertible (n : Z) : bool :=
  match round_int n with
  | S754_infinity _ => false
  | _ => true
  end.

(** Outcomes that are a value or the conversion overflow, the only
    exception arithmetic can raise. *)
Definition overflow_only {A} (o : outcome A) : Prop :=
  match o with
  | Return _ => True
  | Raise e => e = OverflowError "int too large to convert to float"
  end.

(** Whether a number is a [float]. *)
Definition is_float (v : num) : bool :=
  match v with PyFloat _ => true | PyInt _ => false end.

(** The float nearest to [n / 4]. *)
Definition quarters (n : Z) : float := binary_normalize prec emax n (-2) false.

(** The shape of the float that holds [n / 4] exactly: the sign of [n],
    a full mantissa of 53 digits, and an exponent that makes up for it. *)
Definition quarter_shape (n : Z) (x : float) : Prop :=
  exists (m : positive) (e : Z),
    x = S754_finite (n <? 0) m e /\ e <= -2 /\
    Z.pos m = Z.abs n * 2 ^ (-2 - e) /\
    Z.pos (digits2_pos m) = 53.

(** The record after [j >= 1] shifts of [n]: the quotient, the last bit
    shifted out, and whether anything was shifted out before it. *)
Definition shifted (n j : Z) : shr_record :=
  Build_shr_record (n / 2 ^ j)
                   (Z.odd (n / 2 ^ (j - 1)))
                   (negb (n mod 2 ^ (j - 1) =? 0)).

(** [n / 2^k] rounded to the nearest integer, ties to even, as the
    rounding record gives it. *)
Definition rne (n k : Z) : Z :=
  round_nearest_even (shr_m (shifted n k)) (loc_of_shr_record (shifted n k)).

(** The float made of a rounded mantissa [m] at the exponent [e]: zero,
    [m] itself, the next power of two when rounding carried to [2^53],
    or an infinity beyond the largest exponent. *)
Definition pack (s : bool) (m e : Z) : float :=
  match m with
  | Z0 => S754_zero s
  | Zpos p =>
      if m <? 2 ^ 53
      then (if e <=? 971 then S754_finite s p e else S754_infinity s)
      else (if e + 1 <=? 971
            then S754_finite s 4503599627370496 (e + 1)
            else S754_infinity s)
  | Zneg _ => S754_nan
  end.

(** What rounding makes of the mantissa [p] at exponent [c]: the
    mantissa at the exponent [fexp (digits p + c)] of the result. *)
Definition rounded_mantissa (p : positive) (c : Z) : Z :=
  let fe := fexp 53 1024 (Z.pos (digits2_pos p) + c) in
  if fe <=? c then Z.pos p * 2 ^ (c - fe) else rne (Z.pos p) (fe - c).

(** A mantissa fits an exponent when it has at most 53 digits, or is
    [2^53], and is full unless the exponent is the smallest. *)
Definition fits (m e : Z) : Prop :=
  -1074 <= e /\ 0 <= m <= 2 ^ 53 /\ (-1074 < e -> 2 ^ 52 <= m).

End PyNum.

(** ** The module: its global, its two functions, its demonstration *)

Module Calculator.
Import PyStr PyNum.

(** The state a call can see or change: the module-level dict, kept in
    insertion order, and what has been printed so far. *)
Record world : Type := {
  ACTIVITY_FACTORS : list (string * num);
  stdout : list string
}.

(** A computation: runs in a world, gives a value or raises, and leaves a
    world behind. *)
Definition Py (A : Type) : Type := world -> outcome A * world.

Definition raise {A} (e : exn) : Py A := fun w => (Raise e, w).

Definition bind {A B} (c : Py A) (k : A -> Py B) : Py B :=
  fun w =>
    match c w with
    | (Return a, w') => k a w'
    | (Raise e, w') => (Raise e, w')
    end.

Notation "x <- c ;; k" := (bind c (fun x => k))
  (at level 61, c at next level, right associativity).
Notation "c ;;; k" := (bind c (fun _ => k))
  (at level 61, right associativity).

(** An expression that touches no state. *)
Definition pure {A} (o : outcome A) : Py A := fun w => (o, w).

(** Reading the global name [ACTIVITY_FACTORS]. *)
Definition load_ACTIVITY_FACTORS : Py (list (string * num)) :=
  fun w => (Return (ACTIVITY_FACTORS w), w).

(** [print(line)] *)
Definition print (line : string) : Py unit :=
  fun w => (Return tt,
            {| ACTIVITY_FACTORS := ACTIVITY_FACTORS w;
               stdout := stdout w ++ [line] |}).

(** [try: body  except ValueError as e: handler(str(e))] *)
Definition try_except_ValueError (body : Py unit) (handler : string -> Py unit)
  : Py unit :=
  fun w =>
    match body w with
    | (Raise (ValueError msg), w') => handler msg w'
    | r => r
    end.

(** Dict operations on the insertion-ordered table. *)
Fixpoint dict_get (k : string) (d : list (string * num)) : option num :=
  match d with
  | [] => None
  | (k', v) :: d' => if String.eqb k k' then Some v else dict_get k d'
  end.

Definition dict_mem (k : string) (d : list (string * num)) : bool :=
  match dict_get k d with Some _ => true | None => false end.

Definition dict_keys (d : list (string * num)) : list string := map fst d.

(** [d[k]] *)
Definition dict_subscript (d : list (string * num)) (k : string) : outcome num :=
  match dict_get k d with
  | Some v => Return v
  | None => Raise (KeyError k)
  end.

(** The world right after the module body has run. *)
Definition initial_world : world := {|
  ACTIVITY_FACTORS :=
    [ ("sedentary", PyFloat (decimal 12 1));
      ("lightly_active", PyFloat (decimal 1375 3));
      ("moderately_active", PyFloat (decimal 155 2));
      ("very_active", PyFloat (decimal 1725 3));
      ("super_active", PyFloat (decimal 19 1)) ];
  stdout := []
|}.

Definition calculate_bmr (weight_kg height_cm age : num) (gender : string)
  : Py num :=
  if negb (mem (lower gender) ["male"; "female"]) then
    raise (ValueError "Gender must be 'male' or 'female'.")
  else
    t1 <- pure (mul (PyInt 10) weight_kg) ;;
    t2 <- pure (mul (PyFloat (decimal 625 2)) height_cm) ;;
    t3 <- pure (add t1 t2) ;;
    t4 <- pure (mul (PyInt 5) age) ;;
    base_bmr <- pure (sub t3 t4) ;;
    if String.eqb (lower gender) "male" then
      pure (add base_bmr (PyInt 5))
    else
      pure (sub base_bmr (PyInt 161)).

Definition calculate_tdee (bmr : num) (activity_level : string) : Py num :=
  let activity_level := replace space underscore (lower activity_level) in
  table <- load_ACTIVITY_FACTORS ;;
  if negb (dict_mem activity_level table) then
    table <- load_ACTIVITY_FACTORS ;;
    raise (ValueError ("Invalid activity level. Choose from: "
                         ++ join ", " (dict_keys table)))
  else
    table <- load_ACTIVITY_FACTORS ;;
    activity_factor <- pure (dict_subscript table activity_level) ;;
    pure (mul bmr activity_factor).

(** [math.ceil(v)] *)
Definition math_ceil (v : num) : outcome Z :=
  match v with
  | PyInt n => Return n
  | PyFloat x => ceil x
  end.

Section Demo.

(** How an f-string shows [round(v, 2)]: float formatting is outside this
    development, so the demonstration is taken for any such rendering. *)
Variable show_round2 : num -> string.

(** The block under [if __name__ == "__main__":]. *)
Definition main : Py unit :=
  let age := 20 in
  let height_cm := 165 in
  let weight_kg := 53 in
  let gender := "male" in
  let activity_level := "lightly_active" in
  print "--- Maintenance Calorie Calculator (Mifflin-St Jeor) ---" ;;;
  print ("Inputs: " ++ capitalize gender ++ ", " ++ of_int age ++ " years, "
           ++ of_int height_cm ++ " cm, " ++ of_int weight_kg ++ " kg, "
           ++ capitalize (replace underscore space activity_level)) ;;;
  try_except_ValueError
    (bmr_result <- calculate_bmr (PyInt weight_kg) (PyInt height_cm)
                                 (PyInt age) gender ;;
     print (newline ++ "1. Basal Metabolic Rate (BMR): "
              ++ show_round2 bmr_result ++ " kcal/day") ;;;
     tdee_result <- calculate_tdee bmr_result activity_level ;;
     shown <- pure (math_ceil tdee_result) ;;
     print ("2. Maintenance Calories (TDEE): " ++ of_int shown ++ " kcal/day"))
    (fun e => print (newline ++ "Error: " ++ e)).

End Demo.

(** ** Vocabulary of the statements *)

(** The key an activity level is looked up under: what the first statement
    of [calculate_tdee] rebinds [activity_level] to. *)
Definition normalize (s : string) : string :=
  replace space underscore (lower s).

(** The genders [calculate_bmr] accepts. *)
Definition valid_gender (g : string) : bool :=
  mem (lower g) ["male"; "female"].

(** The worlds in which the module-level dict is as the module defined it. *)
Definition table_intact (w : world) : Prop :=
  ACTIVITY_FACTORS w = ACTIVITY_FACTORS initial_world.

(** The value of [(10 * weight_kg) + (6.25 * height_cm) - (5 * age)] on
    float weight and height and an int age, each operation rounding as
    binary64 does and each int operand converted when it meets a float. *)
Definition base_formula (w h : float) (a : Z) : float :=
  fsub (fadd (fmul (round_int 10) w) (fmul (decimal 625 2) h))
       (round_int (5 * a)).

(** [exactly x p q]: the float [x] is the rational [p / q], with no
    rounding error ([q] positive). *)
Definition exactly (x : float) (p q : Z) : Prop :=
  match x with
  | S754_zero _ => p = 0
  | S754_finite s m e =>
      let v := if s then Z.neg m else Z.pos m in
      if 0 <=? e then v * 2 ^ e * q = p else v * q = p * 2 ^ (- e)
  | _ => False
  end.

(** What the demonstration prints before it calls [calculate_tdee]: the
    banner, the inputs and the BMR line. *)
Definition header_lines (show_round2 : num -> string) : list string :=
  [ "--- Maintenance Calorie Calculator (Mifflin-St Jeor) ---";
    "Inputs: Male, 20 years, 165 cm, 53 kg, Lightly active";
    newline ++ "1. Basal Metabolic Rate (BMR): "
      ++ show_round2 (PyFloat (decimal 146625 2)) ++ " kcal/day" ].

End Calculator.

(** * Properties *)

(** ** Strings *)

Module PyStrFacts.
Import PyStr.

(** A fact about one character, settled on each of the 256 code points. *)
Ltac by_code_point c :=
  let b0 := fresh in let b1 := fresh in let b2 := fresh in
  let b3 := fresh in let b4 := fresh in let b5 := fresh in
  let b6 := fresh in let b7 := fresh in
  destruct c as [b0 b1 b2 b3 b4 b5 b6 b7];
  destruct b0, b1, b2, b3, b4, b5, b6, b7; reflexivity.

Lemma lower_char_idem (c : ascii) : lower_char (lower_char c) = lower_char c.
Proof. by_code_point c. Qed.

Lemma lower_idem (s : string) : lower (lower s) = lower s.
Proof.
  induction s as [|c s IH]; simpl; [reflexivity|].
  now rewrite lower_char_idem, IH.
Qed.

(** Lowercasing produces no space and leaves an underscore alone, so it
    commutes with the replacement of spaces by underscores. *)
Lemma lower_char_space (c : ascii) :
  Ascii.eqb (lower_char c) space = Ascii.eqb c space.
Proof. by_code_point c. Qed.

Lemma lower_replace_space (s : string) :
  lower (replace space underscore s) = replace space underscore (lower s).
Proof.
  induction s as [|c s IH]; simpl; [reflexivity|].
  rewrite IH, lower_char_space.
  destruct (Ascii.eqb c space); reflexivity.
Qed.

Lemma replace_space_idem (s : string) :
  replace space underscore (replace space underscore s)
  = replace space underscore s.
Proof.
  induction s as [|c s IH]; simpl; [reflexivity|].
  rewrite IH.
  destruct (Ascii.eqb c space) eqn:E; [reflexivity | now rewrite E].
Qed.

Lemma mem_In (x : string) (l : list string) : mem x l = true <-> In x l.
Proof.
  induction l as [|y l IH]; simpl.
  - split; [discriminate | tauto].
  - rewrite orb_true_iff, IH, String.eqb_eq. intuition congruence.
Qed.

End PyStrFacts.

(** ** Mixed arithmetic *)

Module PyNumFacts.
Import PyNum.

(** The literals of the module, as binary64 numbers: [1.2] is
    [0x1.3333333333333p+0], [6.25] is exact, and so on. *)
Example literal_1_2 : decimal 12 1 = S754_finite false 5404319552844595 (-52).
Proof. reflexivity. Qed.

Example literal_1_375 :
  decimal 1375 3 = S754_finite false 6192449487634432 (-52).
Proof. reflexivity. Qed.

Example literal_1_55 :
  decimal 155 2 = S754_finite false 6980579422424269 (-52).
Proof. reflexivity. Qed.

Example literal_1_725 :
  decimal 1725 3 = S754_finite false 7768709357214106 (-52).
Proof. reflexivity. Qed.

Example literal_1_9 : decimal 19 1 = S754_finite false 8556839292003942 (-52).
Proof. reflexivity. Qed.

Example literal_6_25 :
  decimal 625 2 = S754_finite false 7036874417766400 (-50).
Proof. reflexivity. Qed.

Lemma float_of_int_convertible (n : Z) :
  convertible n = true -> float_of_int n = Return (round_int n).
Proof.
  unfold convertible, float_of_int.
  destruct (round_int n); intros H; try reflexivity; discriminate.
Qed.

Lemma float_of_int_overflow (n : Z) :
  convertible n = false ->
  float_of_int n = Raise (OverflowError "int too large to convert to float").
Proof.
  unfold convertible, float_of_int.
  destruct (round_int n); intros H; try reflexivity; discriminate.
Qed.

Lemma binop_float_float iop fop (x y : float) :
  binop iop fop (PyFloat x) (PyFloat y) = Return (PyFloat (fop x y)).
Proof. reflexivity. Qed.

Lemma binop_int_float iop fop (n : Z) (y : float) :
  convertible n = true ->
  binop iop fop (PyInt n) (PyFloat y) = Return (PyFloat (fop (round_int n) y)).
Proof.
  intros H. unfold binop, as_float. now rewrite (float_of_int_convertible _ H).
Qed.

Lemma binop_float_int iop fop (x : float) (n : Z) :
  convertible n = true ->
  binop iop fop (PyFloat x) (PyInt n) = Return (PyFloat (fop x (round_int n))).
Proof.
  intros H. unfold binop, as_float. simpl.
  now rewrite (float_of_int_convertible _ H).
Qed.

(** The only exception arithmetic can raise is the conversion overflow. *)
Lemma float_of_int_overflow_only (n : Z) : overflow_only (float_of_int n).
Proof.
  unfold float_of_int. destruct (round_int n); simpl; auto.
Qed.

Lemma binop_overflow_only iop fop (a b : num) :
  overflow_only (binop iop fop a b).
Proof.
  destruct a as [m|x], b as [n|y]; simpl; auto.
  - pose proof (float_of_int_overflow_only m) as H.
    destruct (float_of_int m); simpl in *; auto.
  - pose proof (float_of_int_overflow_only n) as H.
    destruct (float_of_int n); simpl in *; auto.
Qed.

(** A sum, difference or product with a float operand is a float. *)
Lemma binop_float_result iop fop (a b v : num) :
  is_float a || is_float b = true ->
  binop iop fop a b = Return v -> is_float v = true.
Proof.
  destruct a as [m|x], b as [n|y]; simpl; try discriminate; intros _.
  - destruct (float_of_int m); simpl; intros H; inversion H; reflexivity.
  - destruct (float_of_int n); simpl; intros H; inversion H; reflexivity.
  - intros H; inversion H; reflexivity.
Qed.

End PyNumFacts.

(** ** Rounding in binary64

    What the statements below need of [SpecFloat]'s rounding: the number
    of digits of a mantissa, right shifts as divisions, and from these
    that a product by a factor in [[1, 2)] is not below the other operand. *)

Module Binary64Facts.
Import PyNum.

(** A mantissa of [d] digits lies in [[2^(d-1), 2^d)]. *)
Lemma digits2_pos_bounds (p : positive) :
  2 ^ (Z.pos (digits2_pos p) - 1) <= Z.pos p < 2 ^ Z.pos (digits2_pos p).
Proof.
  induction p as [p IH|p IH|]; cbn [digits2_pos].
  - rewrite Pos2Z.inj_succ.
    replace (Z.succ (Z.pos (digits2_pos p)) - 1)
      with (Z.succ (Z.pos (digits2_pos p) - 1)) by lia.
    rewrite !Z.pow_succ_r by lia. lia.
  - rewrite Pos2Z.inj_succ.
    replace (Z.succ (Z.pos (digits2_pos p)) - 1)
      with (Z.succ (Z.pos (digits2_pos p) - 1)) by lia.
    rewrite !Z.pow_succ_r by lia. lia.
  - simpl. lia.
Qed.

Lemma shr_1_div2 (mrs : shr_record) :
  0 <= shr_m mrs -> shr_m (shr_1 mrs) = shr_m mrs / 2.
Proof.
  destruct mrs as [m r s]; cbn [shr_m]. intros Hm.
  rewrite <- Z.div2_div.
  destruct m as [|[p|p|]|p]; try reflexivity. lia.
Qed.

Lemma iter_shr_1_div (p : positive) (mrs : shr_record) :
  0 <= shr_m mrs ->
  shr_m (iter_pos shr_1 p mrs) = shr_m mrs / 2 ^ Z.pos p.
Proof.
  revert mrs. induction p as [p IH|p IH|]; intros mrs Hm; cbn [iter_pos].
  - assert (H1 : 0 <= shr_m (shr_1 mrs)).
    { rewrite shr_1_div2 by assumption. apply Z.div_pos; lia. }
    assert (H2 : 0 <= shr_m (iter_pos shr_1 p (shr_1 mrs))).
    { rewrite IH by assumption. apply Z.div_pos; lia. }
    rewrite IH, IH, shr_1_div2 by assumption.
    rewrite !Z.div_div by lia.
    f_equal. replace (Z.pos p~1) with (1 + Z.pos p + Z.pos p) by lia.
    rewrite !Z.pow_add_r by lia. change (2 ^ 1) with 2. ring.
  - assert (H2 : 0 <= shr_m (iter_pos shr_1 p mrs)).
    { rewrite IH by assumption. apply Z.div_pos; lia. }
    rewrite IH, IH by assumption.
    rewrite !Z.div_div by lia.
    f_equal. replace (Z.pos p~0) with (Z.pos p + Z.pos p) by lia.
    rewrite !Z.pow_add_r by lia. change (2 ^ 1) with 2. ring.
  - now rewrite shr_1_div2.
Qed.


Lemma fexp_binary64 (x : Z) : fexp 53 1024 x = Z.max (x - 53) (-1074).
Proof. reflexivity. Qed.

Lemma shr_exact (m e k : Z) :
  0 <= m ->
  shr (shr_record_of_loc m loc_Exact) e k
  = (fst (shr (shr_record_of_loc m loc_Exact) e k),
     if 0 <? k then e + k else e) /\
  shr_m (fst (shr (shr_record_of_loc m loc_Exact) e k))
  = if 0 <? k then m / 2 ^ k else m.
Proof.
  intros Hm. destruct k as [|p|p]; cbn [shr fst snd Z.ltb Z.compare].
  - split; reflexivity.
  - split; [reflexivity|]. now rewrite iter_shr_1_div.
  - split; reflexivity.
Qed.

Lemma round_nearest_even_bounds (m : Z) (l : location) :
  m <= round_nearest_even m l <= m + 1.
Proof.
  destruct l as [|[]]; cbn [round_nearest_even]; try lia.
  destruct (Z.even m); lia.
Qed.

Lemma pow2_le_div (m k d : Z) :
  0 <= k <= d - 1 -> 2 ^ (d - 1) <= m -> 1 <= m / 2 ^ k.
Proof.
  intros Hk Hm. apply Z.div_le_lower_bound; [lia|].
  rewrite Z.mul_1_r. transitivity (2 ^ (d - 1)); [|assumption].
  apply Z.pow_le_mono_r; lia.
Qed.

(** Multiplying a non-negative binary64 number by a factor in [[1, 2)]
    never gives less than the number. *)
Lemma mul_by_factor_ge (m mf : positive) (e : Z) :
  bounded 53 1024 m e = true ->
  digits2_pos mf = 53%positive ->
  SFleb (S754_finite false m e)
        (SFmul 53 1024 (S754_finite false m e) (S754_finite false mf (-52)))
  = true.
Proof.
  intros Hb Hf.
  unfold bounded, canonical_mantissa in Hb.
  apply andb_true_iff in Hb. destruct Hb as [Hcan He].
  apply Z.eqb_eq in Hcan. apply Z.leb_le in He.
  rewrite fexp_binary64 in Hcan. change (1024 - 53) with 971 in He.
  pose proof (digits2_pos_bounds m) as Bm.
  pose proof (digits2_pos_bounds mf) as Bf. rewrite Hf in Bf.
  change (2 ^ (53 - 1)) with (2 ^ 52) in Bf.
  pose proof (digits2_pos_bounds (m * mf)) as BM.
  set (dm := Z.pos (digits2_pos m)) in *.
  set (dM := Z.pos (digits2_pos (m * mf))) in *.
  set (M := Z.pos (m * mf)) in *.
  assert (HM : M = Z.pos m * Z.pos mf) by reflexivity.
  assert (Hdm : 1 <= dm) by (unfold dm; lia).
  (* the product has 52 or 53 digits more than [m] *)
  assert (HdM : dm + 52 <= dM <= dm + 53).
  { split.
    - assert (2 ^ (dm - 1 + 52) < 2 ^ dM) as H.
      { apply Z.le_lt_trans with M; [|lia].
        rewrite Z.pow_add_r, HM by lia.
        apply Z.mul_le_mono_nonneg; lia. }
      apply Z.pow_lt_mono_r_iff in H; lia.
    - assert (2 ^ (dM - 1) < 2 ^ (dm + 53)) as H.
      { apply Z.le_lt_trans with M; [lia|].
        rewrite Z.pow_add_r, HM by lia.
        apply Z.mul_lt_mono_nonneg; lia. }
      apply Z.pow_lt_mono_r_iff in H; lia. }
  assert (Hmf : Z.pos m * 2 ^ 52 <= M).
  { rewrite HM. apply Z.mul_le_mono_nonneg_l; lia. }
  unfold SFmul, binary_round_aux, shr_fexp. cbn [xorb].
  fold M. rewrite fexp_binary64. change (Zdigits2 M) with dM.
  set (k1 := Z.max (dM + (e + -52) - 53) (-1074) - (e + -52)).
  assert (Hk1 : 52 <= k1 <= dM - 1) by lia.
  destruct (shr_exact M (e + -52) k1 ltac:(lia)) as [E1 Em1].
  rewrite E1. clear E1.
  set (mrs1 := fst (shr (shr_record_of_loc M loc_Exact) (e + -52) k1)) in *.
  replace (0 <? k1) with true in * by (symmetry; apply Z.ltb_lt; lia).
  assert (Hm1 : 1 <= shr_m mrs1).
  { rewrite Em1. apply pow2_le_div with dM; lia. }
  assert (Hm1' : k1 = 52 -> Z.pos m <= shr_m mrs1).
  { intros ->. rewrite Em1. apply Z.div_le_lower_bound; lia. }
  pose proof (round_nearest_even_bounds (shr_m mrs1) (loc_of_shr_record mrs1))
    as Hm2.
  set (m2 := round_nearest_even (shr_m mrs1) (loc_of_shr_record mrs1)) in *.
  set (e1 := e + -52 + k1) in *.
  destruct m2 as [|p2|p2] eqn:Ep2; try lia.
  cbn [Zdigits2]. rewrite fexp_binary64.
  pose proof (digits2_pos_bounds p2) as B2.
  set (d2 := Z.pos (digits2_pos p2)) in *.
  set (k2 := Z.max (d2 + e1 - 53) (-1074) - e1).
  destruct (shr_exact (Z.pos p2) e1 k2 ltac:(lia)) as [E2 Em3].
  rewrite E2. clear E2.
  set (mrs2 := fst (shr (shr_record_of_loc (Z.pos p2) loc_Exact) e1 k2)) in *.
  assert (Hd2 : 1 <= d2) by (unfold d2; lia).
  assert (Hfin : 1 <= shr_m mrs2 /\
                 (e < (if 0 <? k2 then e1 + k2 else e1) \/
                  (e = (if 0 <? k2 then e1 + k2 else e1) /\
                   Z.pos m <= shr_m mrs2))).
  { rewrite Em3. destruct (Z.ltb_spec 0 k2) as [Hk2|Hk2].
    - split; [apply pow2_le_div with d2; lia | left; lia].
    - split; [lia|].
      destruct (Z.eq_dec k1 52) as [Hk|Hk]; [right|left]; lia. }
  destruct Hfin as [Hpos Hcmp].
  set (e2 := if 0 <? k2 then e1 + k2 else e1) in *.
  destruct (shr_m mrs2) as [|p3|p3]; try lia.
  destruct (e2 <=? 1024 - 53); [|reflexivity].
  unfold SFleb, SFcompare.
  destruct Hcmp as [Hlt|[Heq Hle]].
  - apply Z.compare_lt_iff in Hlt. now rewrite Hlt.
  - rewrite <- Heq, Z.compare_refl.
    change (Pos.compare_cont Eq m p3) with (Pos.compare m p3).
    destruct (Pos.compare_spec m p3); try reflexivity. lia.
Qed.

(** The digits of a mantissa below [2^d] are at most [d]. *)
Lemma digits2_pos_unique (p : positive) (d : Z) :
  Z.pos p < 2 ^ d -> Z.pos (digits2_pos p) <= d.
Proof.
  intros H. pose proof (digits2_pos_bounds p) as B.
  assert (0 <= d).
  { destruct (Z.le_gt_cases 0 d); [assumption|].
    rewrite Z.pow_neg_r in H by lia. lia. }
  assert (2 ^ (Z.pos (digits2_pos p) - 1) < 2 ^ d) as L by lia.
  apply Z.pow_lt_mono_r_iff in L; lia.
Qed.

(** Appending low zero bits adds as many digits. *)
Lemma digits2_pos_shift (p d : positive) :
  digits2_pos (Pos.iter xO p d) = (digits2_pos p + d)%positive.
Proof.
  induction d as [|d IH] using Pos.peano_ind.
  - cbn. lia.
  - rewrite Pos.iter_succ. cbn [digits2_pos]. rewrite IH. lia.
Qed.

(** Rounding an exact positive mantissa does not overflow when the number
    is below [2^1023]. *)
Lemma binary_round_aux_finite (s : bool) (M : positive) (E : Z) :
  Z.pos (digits2_pos M) + E <= 1023 ->
  -1074 <= E <= 971 ->
  forall s',
    binary_round_aux 53 1024 s (Z.pos M) E loc_Exact <> S754_infinity s'.
Proof.
  intros HdE HE s'.
  pose proof (digits2_pos_bounds M) as BM.
  unfold binary_round_aux, shr_fexp. cbn [Zdigits2].
  rewrite fexp_binary64.
  set (dM := Z.pos (digits2_pos M)) in *.
  assert (HdM : 1 <= dM) by (unfold dM; lia).
  set (k1 := Z.max (dM + E - 53) (-1074) - E).
  destruct (shr_exact (Z.pos M) E k1 ltac:(lia)) as [E1 Em1].
  rewrite E1. clear E1.
  set (mrs1 := fst (shr (shr_record_of_loc (Z.pos M) loc_Exact) E k1)) in *.
  set (e1 := if 0 <? k1 then E + k1 else E) in *.
  pose proof (round_nearest_even_bounds (shr_m mrs1) (loc_of_shr_record mrs1))
    as Hm2.
  set (m2 := round_nearest_even (shr_m mrs1) (loc_of_shr_record mrs1)) in *.
  assert (Hm1 : 0 <= shr_m mrs1).
  { rewrite Em1. destruct (Z.ltb_spec 0 k1); [|lia].
    apply Z.div_pos; [lia | apply Z.pow_pos_nonneg; lia]. }
  assert (Hd2 : Zdigits2 m2 + e1 <= 1024 /\ e1 <= 971 /\ 0 <= m2).
  { split; [|split]; [| |lia].
    - destruct m2 as [|p2|p2] eqn:Ep2; cbn [Zdigits2];
        [unfold e1; destruct (0 <? k1); lia | | lia].
      unfold e1. destruct (Z.ltb_spec 0 k1) as [Hk|Hk].
      + assert (Z.pos p2 < 2 ^ (dM - k1 + 1)) as Hlt.
        { assert (shr_m mrs1 < 2 ^ (dM - k1)).
          { rewrite Em1. apply Z.div_lt_upper_bound; [lia|].
            rewrite <- Z.pow_add_r by lia.
            replace (k1 + (dM - k1)) with dM by lia. lia. }
          rewrite Z.pow_add_r by lia. change (2 ^ 1) with 2. lia. }
        apply digits2_pos_unique in Hlt. lia.
      + assert (Z.pos p2 = Z.pos M) as Hp.
        { rewrite <- Ep2. unfold m2, mrs1.
          destruct k1; try lia; reflexivity. }
        injection Hp as ->. fold dM. lia.
    - unfold e1. destruct (0 <? k1); lia. }
  destruct Hd2 as (Hd2 & He1 & Hm2pos).
  rewrite fexp_binary64.
  set (k2 := Z.max (Zdigits2 m2 + e1 - 53) (-1074) - e1).
  destruct (shr_exact m2 e1 k2 Hm2pos) as [E2 _].
  rewrite E2. clear E2.
  destruct (shr_m (fst (shr (shr_record_of_loc m2 loc_Exact) e1 k2)));
    try discriminate.
  replace ((if 0 <? k2 then e1 + k2 else e1) <=? 1024 - 53) with true;
    [discriminate|].
  symmetry. apply Z.leb_le. change (1024 - 53) with 971.
  destruct (0 <? k2); lia.
Qed.

(** So does the rounding of an integer below [2^1023]. *)
Lemma binary_round_finite (s : bool) (p : positive) :
  Z.pos p < 2 ^ 1023 ->
  forall s', binary_round 53 1024 s p 0 <> S754_infinity s'.
Proof.
  intros Hp s'. unfold binary_round, shl_align.
  rewrite fexp_binary64.
  pose proof (digits2_pos_unique p 1023 Hp) as Hd.
  destruct (Z.max (Z.pos (digits2_pos p) + 0 - 53) (-1074) - 0)
    as [|k|k] eqn:Ek;
    try (apply binary_round_aux_finite; lia).
  apply binary_round_aux_finite; [|lia].
  rewrite digits2_pos_shift. lia.
Qed.

(** Every int below [2^1023] in absolute value converts to a float. *)
Lemma convertible_below (n : Z) :
  Z.abs n < 2 ^ 1023 -> convertible n = true.
Proof.
  intros Hn. unfold convertible, round_int, binary_normalize, prec, emax.
  destruct n as [|p|p]; [reflexivity | |].
  - pose proof (binary_round_finite false p ltac:(lia)) as H.
    destruct (binary_round 53 1024 false p 0) as [?|s'| |? ? ?];
      try reflexivity.
    now elim (H s').
  - pose proof (binary_round_finite true p ltac:(lia)) as H.
    destruct (binary_round 53 1024 true p 0) as [?|s'| |? ? ?];
      try reflexivity.
    now elim (H s').
Qed.

(** The same for every float that compares as at least zero: zeros and
    the positive infinity included, NaN and negative numbers excluded by
    the comparison. *)
Lemma fmul_factor_ge (x : float) (mf : positive) :
  well_formed x = true ->
  fle zero x = true ->
  digits2_pos mf = 53%positive ->
  fle x (fmul x (S754_finite false mf (-52))) = true.
Proof.
  intros Hx H0 Hf. destruct x as [s|s| |s m e].
  - reflexivity.
  - destruct s; [discriminate | reflexivity].
  - discriminate.
  - destruct s; [discriminate|].
    apply mul_by_factor_ge; assumption.
Qed.

End Binary64Facts.

(** ** The two functions *)

Module CalculatorFacts.
Import PyStr PyNum Calculator PyStrFacts PyNumFacts Binary64Facts.

Lemma convertible_10 : convertible 10 = true.
Proof. reflexivity. Qed.

Lemma convertible_5 : convertible 5 = true.
Proof. reflexivity. Qed.

Lemma convertible_161 : convertible 161 = true.
Proof. reflexivity. Qed.

Lemma valid_gender_cases (g : string) :
  valid_gender g = true <-> lower g = "male" \/ lower g = "female".
Proof.
  unfold valid_gender. rewrite mem_In. simpl. intuition congruence.
Qed.

(** What [calculate_bmr] does once the gender is accepted, on a float
    weight, a float height and an int age whose product by 5 converts. *)
Lemma calculate_bmr_accepted (w h : float) (a : Z) (g : string) (wd : world) :
  valid_gender g = true ->
  convertible (5 * a) = true ->
  calculate_bmr (PyFloat w) (PyFloat h) (PyInt a) g wd
  = (Return (PyFloat (if String.eqb (lower g) "male"
                      then fadd (base_formula w h a) (round_int 5)
                      else fsub (base_formula w h a) (round_int 161))), wd).
Proof.
  intros Hg Ha. unfold calculate_bmr. fold (valid_gender g). rewrite Hg.
  unfold bind, pure, mul, add, sub; simpl negb; cbv iota.
  rewrite (binop_int_float _ _ _ _ convertible_10).
  rewrite binop_float_float.
  rewrite binop_float_float.
  change (binop Z.mul fmul (PyInt 5) (PyInt a)) with (Return (PyInt (5 * a))).
  cbv iota beta.
  rewrite (binop_float_int _ _ _ _ Ha).
  destruct (String.eqb (lower g) "male").
  - now rewrite (binop_float_int _ _ _ _ convertible_5).
  - now rewrite (binop_float_int _ _ _ _ convertible_161).
Qed.

(** Once the gender is accepted nothing but a conversion overflow can be
    raised, whatever numbers are passed. *)
Lemma calculate_bmr_overflow_only (w h a : num) (g : string) (wd : world) :
  valid_gender g = true ->
  overflow_only (fst (calculate_bmr w h a g wd)).
Proof.
  intros Hg. unfold calculate_bmr. fold (valid_gender g). rewrite Hg.
  unfold bind, pure, mul, add, sub; simpl negb; cbv iota.
  pose proof (binop_overflow_only Z.mul fmul (PyInt 10) w) as H1.
  destruct (binop Z.mul fmul (PyInt 10) w) as [t1|]; [clear H1|exact H1].
  pose proof (binop_overflow_only Z.mul fmul (PyFloat (decimal 625 2)) h) as H2.
  destruct (binop Z.mul fmul (PyFloat (decimal 625 2)) h) as [t2|];
    [clear H2|exact H2].
  pose proof (binop_overflow_only Z.add fadd t1 t2) as H3.
  destruct (binop Z.add fadd t1 t2) as [t3|]; [clear H3|exact H3].
  pose proof (binop_overflow_only Z.mul fmul (PyInt 5) a) as H4.
  destruct (binop Z.mul fmul (PyInt 5) a) as [t4|]; [clear H4|exact H4].
  pose proof (binop_overflow_only Z.sub fsub t3 t4) as H5.
  destruct (binop Z.sub fsub t3 t4) as [base|]; [clear H5|exact H5].
  destruct (String.eqb (lower g) "male"); apply binop_overflow_only.
Qed.

(** Whatever numbers are passed, what [calculate_bmr] returns is a float:
    the product by the literal [6.25] is one, and it spreads. *)
Lemma calculate_bmr_returns_float (w h a : num) (g : string) (wd : world)
      (v : num) :
  fst (calculate_bmr w h a g wd) = Return v -> is_float v = true.
Proof.
  unfold calculate_bmr.
  destruct (negb (mem (lower g) ["male"; "female"])); [discriminate|].
  unfold bind, pure, mul, add, sub.
  destruct (binop Z.mul fmul (PyInt 10) w) as [t1|]; [|discriminate].
  destruct (binop Z.mul fmul (PyFloat (decimal 625 2)) h) as [t2|] eqn:E2;
    [|discriminate].
  apply binop_float_result in E2; [|reflexivity].
  destruct (binop Z.add fadd t1 t2) as [t3|] eqn:E3; [|discriminate].
  apply binop_float_result in E3; [|rewrite E2; apply orb_true_r].
  destruct (binop Z.mul fmul (PyInt 5) a) as [t4|]; [|discriminate].
  destruct (binop Z.sub fsub t3 t4) as [base|] eqn:E5; [|discriminate].
  apply binop_float_result in E5; [|now rewrite E3].
  destruct (String.eqb (lower g) "male"); cbn [fst]; intros E;
    apply binop_float_result in E; auto; now rewrite E5.
Qed.

Lemma calculate_bmr_rejected (w h a : num) (g : string) (wd : world) :
  valid_gender g = false ->
  calculate_bmr w h a g wd
  = (Raise (ValueError "Gender must be 'male' or 'female'."), wd).
Proof.
  intros Hg. unfold calculate_bmr. fold (valid_gender g). now rewrite Hg.
Qed.

(** [calculate_bmr] reads nothing from the world and leaves it as it was. *)
Lemma calculate_bmr_stateless (w h a : num) (g : string) (wd : world) :
  calculate_bmr w h a g wd = (fst (calculate_bmr w h a g initial_world), wd).
Proof.
  unfold calculate_bmr.
  destruct (negb (mem (lower g) ["male"; "female"])); [reflexivity|].
  unfold bind, pure.
  destruct (mul (PyInt 10) w) as [t1|]; [|reflexivity].
  destruct (mul (PyFloat (decimal 625 2)) h) as [t2|]; [|reflexivity].
  destruct (add t1 t2) as [t3|]; [|reflexivity].
  destruct (mul (PyInt 5) a) as [t4|]; [|reflexivity].
  destruct (sub t3 t4) as [base|]; [|reflexivity].
  destruct (String.eqb (lower g) "male"); reflexivity.
Qed.

(** [calculate_tdee] reads the dict only, and leaves the world as it was. *)
Lemma calculate_tdee_stateless (bmr : num) (s : string) (wd : world) :
  calculate_tdee bmr s wd
  = (fst (calculate_tdee bmr s {| ACTIVITY_FACTORS := ACTIVITY_FACTORS wd;
                                  stdout := [] |}), wd).
Proof.
  destruct wd as [tbl out].
  unfold calculate_tdee, bind, load_ACTIVITY_FACTORS, raise, pure; simpl.
  destruct (negb (dict_mem (replace space underscore (lower s)) tbl));
    simpl; [reflexivity|].
  destruct (dict_subscript tbl (replace space underscore (lower s)));
    reflexivity.
Qed.

Lemma normalize_idem (s : string) : normalize (normalize s) = normalize s.
Proof.
  unfold normalize.
  now rewrite lower_replace_space, lower_idem, replace_space_idem.
Qed.

(** On a key of the dict, [calculate_tdee] multiplies by the value bound
    to it. *)
Lemma calculate_tdee_lookup (bmr : num) (s : string) (wd : world) (v : num) :
  dict_get (normalize s) (ACTIVITY_FACTORS wd) = Some v ->
  calculate_tdee bmr s wd = (mul bmr v, wd).
Proof.
  intros H. unfold calculate_tdee, bind, load_ACTIVITY_FACTORS, pure.
  fold (normalize s). unfold dict_mem, dict_subscript.
  cbv beta zeta. rewrite H. cbn [negb]. cbv beta. now rewrite H.
Qed.

Lemma calculate_tdee_missing (bmr : num) (s : string) (wd : world) :
  dict_get (normalize s) (ACTIVITY_FACTORS wd) = None ->
  calculate_tdee bmr s wd
  = (Raise (ValueError ("Invalid activity level. Choose from: "
                          ++ join ", " (dict_keys (ACTIVITY_FACTORS wd)))), wd).
Proof.
  intros H. unfold calculate_tdee, bind, load_ACTIVITY_FACTORS, raise.
  fold (normalize s). unfold dict_mem.
  cbv beta zeta. rewrite H. reflexivity.
Qed.

(** The other two scenarios the specification walks through: a female
    profile giving exactly 1451.5, and a gender nobody accepts. *)
Example female_scenario :
  calculate_bmr (PyInt 70) (PyInt 170) (PyInt 30) "female" initial_world
  = (Return (PyFloat (decimal 14515 1)), initial_world) /\
  exactly (decimal 14515 1) 14515 10.
Proof. split; vm_compute; reflexivity. Qed.

Example invalid_gender_scenario :
  calculate_bmr (PyInt 70) (PyInt 170) (PyInt 30) "x" initial_world
  = (Raise (ValueError "Gender must be 'male' or 'female'."), initial_world).
Proof. reflexivity. Qed.

(** ** The statements of the specification *)

(** C1, as stated, at an int age beyond the float range: the gender is
    accepted, and the subtraction of [5 * age] from a float raises
    [OverflowError] instead of returning the formula's value. *)
Lemma calculate_bmr_formula_huge_age :
  lower "male" = "male" /\
  fst (calculate_bmr (PyFloat (decimal 53 0)) (PyFloat (decimal 165 0))
                     (PyInt (2 ^ 1024)) "male" initial_world)
  = Raise (OverflowError "int too large to convert to float") /\
  forall v : num,
    fst (calculate_bmr (PyFloat (decimal 53 0)) (PyFloat (decimal 165 0))
                       (PyInt (2 ^ 1024)) "male" initial_world)
    <> Return v.
Proof.
  assert (E : fst (calculate_bmr (PyFloat (decimal 53 0))
                                 (PyFloat (decimal 165 0))
                                 (PyInt (2 ^ 1024)) "male" initial_world)
              = Raise (OverflowError "int too large to convert to float"))
    by (vm_compute; reflexivity).
  split; [reflexivity|]. split; [exact E|].
  intros v. rewrite E. discriminate.
Qed.

(** C1 (amended): for every float weight and height, every int age such
    that [5 * age] converts to a float, and every gender whose lowercase
    form is ['male'] or ['female'], [calculate_bmr] returns
    [10*weight + 6.25*height - 5*age], plus 5 for ['male'] and minus 161
    for ['female'], and leaves the world untouched. *)
Theorem calculate_bmr_formula (w h : float) (a : Z) (g : string) (wd : world) :
  convertible (5 * a) = true ->
  (lower g = "male" ->
   calculate_bmr (PyFloat w) (PyFloat h) (PyInt a) g wd
   = (Return (PyFloat (fadd (base_formula w h a) (round_int 5))), wd)) /\
  (lower g = "female" ->
   calculate_bmr (PyFloat w) (PyFloat h) (PyInt a) g wd
   = (Return (PyFloat (fsub (base_formula w h a) (round_int 161))), wd)).
Proof.
  intros Ha. split; intros Hg.
  - rewrite calculate_bmr_accepted; auto.
    + now rewrite Hg.
    + apply valid_gender_cases; auto.
  - rewrite calculate_bmr_accepted; auto.
    + now rewrite Hg.
    + apply valid_gender_cases; auto.
Qed.

Lemma calculate_bmr_formula_witness :
  convertible (5 * 30) = true /\
  lower "Female" = "female" /\
  calculate_bmr (PyFloat (decimal 70 0)) (PyFloat (decimal 170 0))
                (PyInt 30) "Female" initial_world
  = (Return (PyFloat (fsub (base_formula (decimal 70 0) (decimal 170 0) 30)
                           (round_int 161))), initial_world).
Proof.
  split; [reflexivity|]. split; [reflexivity|].
  apply (calculate_bmr_formula (decimal 70 0) (decimal 170 0) 30 "Female"
                               initial_world); reflexivity.
Defined.

(** C2: for every float bmr and every activity level that normalizes to
    one of the five keys, [calculate_tdee] returns bmr times the factor
    bound to that key: 1.2, 1.375, 1.55, 1.725 and 1.9 in this order. *)
Theorem calculate_tdee_factor (bmr : float) (s : string) (wd : world)
        (key : string) (factor : float) :
  table_intact wd ->
  In (key, factor) [ ("sedentary", decimal 12 1);
                     ("lightly_active", decimal 1375 3);
                     ("moderately_active", decimal 155 2);
                     ("very_active", decimal 1725 3);
                     ("super_active", decimal 19 1) ] ->
  normalize s = key ->
  calculate_tdee (PyFloat bmr) s wd = (Return (PyFloat (fmul bmr factor)), wd).
Proof.
  intros Hw Hin Hs.
  rewrite (calculate_tdee_lookup _ _ _ (PyFloat factor)); [reflexivity|].
  rewrite Hw, Hs. simpl in Hin.
  repeat (destruct Hin as [Hin|Hin];
          [injection Hin as <- <-; reflexivity|]).
  contradiction.
Qed.

Lemma calculate_tdee_factor_witness :
  calculate_tdee (PyFloat (decimal 1500 0)) "Very Active" initial_world
  = (Return (PyFloat (fmul (decimal 1500 0) (decimal 1725 3))), initial_world).
Proof.
  apply (calculate_tdee_factor (decimal 1500 0) "Very Active" initial_world
                               "very_active" (decimal 1725 3)).
  - reflexivity.
  - simpl. auto.
  - reflexivity.
Defined.

(** C3: [calculate_bmr] raises the [ValueError] of its first statement if
    and only if the lowercase form of the gender is neither ['male'] nor
    ['female'], whatever the numbers; and then it returns no result. *)
Theorem calculate_bmr_invalid_gender_iff (w h a : num) (g : string)
        (wd : world) :
  ((exists msg, fst (calculate_bmr w h a g wd) = Raise (ValueError msg))
   <-> lower g <> "male" /\ lower g <> "female") /\
  (fst (calculate_bmr w h a g wd)
   = Raise (ValueError "Gender must be 'male' or 'female'.")
   <-> lower g <> "male" /\ lower g <> "female") /\
  (lower g <> "male" /\ lower g <> "female" ->
   forall v, fst (calculate_bmr w h a g wd) <> Return v).
Proof.
  assert (Hno : valid_gender g = false
                <-> lower g <> "male" /\ lower g <> "female").
  { rewrite <- not_true_iff_false, valid_gender_cases. tauto. }
  assert (Hyes : valid_gender g = true ->
                 forall msg,
                   fst (calculate_bmr w h a g wd) <> Raise (ValueError msg)).
  { intros Hg msg E.
    pose proof (calculate_bmr_overflow_only w h a g wd Hg) as Ho.
    rewrite E in Ho. simpl in Ho. discriminate. }
  split; [|split].
  - split.
    + intros [msg E]. apply Hno.
      destruct (valid_gender g) eqn:Hg; [|reflexivity].
      exfalso. exact (Hyes eq_refl msg E).
    + intros Hg. apply Hno in Hg. eexists.
      now rewrite calculate_bmr_rejected.
  - split.
    + intros E. apply Hno.
      destruct (valid_gender g) eqn:Hg; [|reflexivity].
      exfalso. exact (Hyes eq_refl _ E).
    + intros Hg. apply Hno in Hg. now rewrite calculate_bmr_rejected.
  - intros Hg. apply Hno in Hg. intros v.
    rewrite calculate_bmr_rejected by assumption. discriminate.
Qed.

Lemma calculate_bmr_invalid_gender_iff_witness :
  fst (calculate_bmr (PyInt 70) (PyInt 170) (PyInt 30) "other" initial_world)
  = Raise (ValueError "Gender must be 'male' or 'female'.").
Proof.
  apply (calculate_bmr_invalid_gender_iff (PyInt 70) (PyInt 170) (PyInt 30)
                                          "other" initial_world).
  split; discriminate.
Defined.

(** C4: for every bmr and every activity level whose normalized form is
    not a key of the activity-factor table, [calculate_tdee] raises
    [ValueError], and the message lists the keys in the order the table
    defines them. *)
Theorem calculate_tdee_invalid (bmr : num) (s : string) (wd : world) :
  table_intact wd ->
  dict_mem (normalize s) (ACTIVITY_FACTORS wd) = false ->
  dict_keys (ACTIVITY_FACTORS wd)
  = ["sedentary"; "lightly_active"; "moderately_active"; "very_active";
     "super_active"] /\
  calculate_tdee bmr s wd
  = (Raise (ValueError "Invalid activity level. Choose from: sedentary, lightly_active, moderately_active, very_active, super_active"),
     wd).
Proof.
  intros Hw Hm. split.
  - now rewrite Hw.
  - rewrite calculate_tdee_missing.
    + now rewrite Hw.
    + unfold dict_mem in Hm.
      destruct (dict_get (normalize s) (ACTIVITY_FACTORS wd));
        [discriminate | reflexivity].
Qed.

Lemma calculate_tdee_invalid_witness :
  calculate_tdee (PyFloat (decimal 146625 2)) "extreme" initial_world
  = (Raise (ValueError "Invalid activity level. Choose from: sedentary, lightly_active, moderately_active, very_active, super_active"),
     initial_world).
Proof.
  apply (calculate_tdee_invalid (PyFloat (decimal 146625 2)) "extreme"
                                initial_world); reflexivity.
Defined.

(** C5: [calculate_bmr] is case-insensitive on gender: a gender and its
    lowercase form give the same outcome, value or error, and so do
    ["Male"], ["MALE"] and ["male"]. *)
Theorem calculate_bmr_case_insensitive (w h a : num) (g : string)
        (wd : world) :
  calculate_bmr w h a g wd = calculate_bmr w h a (lower g) wd /\
  calculate_bmr w h a "Male" wd = calculate_bmr w h a "male" wd /\
  calculate_bmr w h a "MALE" wd = calculate_bmr w h a "male" wd.
Proof.
  assert (H : forall g', calculate_bmr w h a g' wd
                         = calculate_bmr w h a (lower g') wd).
  { intros g'. unfold calculate_bmr. now rewrite lower_idem. }
  split; [apply H|]. split.
  - exact (H "Male").
  - exact (H "MALE").
Qed.

(** C6: [calculate_tdee] looks its argument up in normalized form: a
    string and its normalization (lowercased, spaces turned into
    underscores) give the same outcome, and so do ["Lightly Active"] and
    ["lightly_active"]. *)
Theorem calculate_tdee_normalizes (bmr : num) (s : string) (wd : world) :
  calculate_tdee bmr s wd = calculate_tdee bmr (normalize s) wd /\
  calculate_tdee bmr "Lightly Active" wd
  = calculate_tdee bmr "lightly_active" wd.
Proof.
  assert (H : forall s', calculate_tdee bmr s' wd
                         = calculate_tdee bmr (normalize s') wd).
  { intros s'. unfold calculate_tdee.
    fold (normalize s'). fold (normalize (normalize s')).
    now rewrite normalize_idem. }
  split; [apply H|]. exact (H "Lightly Active").
Qed.

(** C7, as stated, at a negative int age beyond the float range: the
    gender is accepted and the call raises, so "returns without raising"
    fails there. *)
Lemma calculate_bmr_raises_on_huge_negative_age :
  valid_gender "female" = true /\
  fst (calculate_bmr (PyFloat (decimal 70 0)) (PyFloat (decimal 170 0))
                     (PyInt (- 2 ^ 1024)) "female" initial_world)
  = Raise (OverflowError "int too large to convert to float").
Proof. split; vm_compute; reflexivity. Qed.

(** C7 (amended): [calculate_bmr] checks no bound on weight, height or
    age.  For every weight, height and age, zero and negative ones
    included, and every gender whose lowercase form is ['male'] or
    ['female'], the gender error is unreachable: the call raises no
    [ValueError], and nothing at all but the overflow of an int-to-float
    conversion; on a float weight, a float height and an int age such that
    [5 * age] converts to a float, it returns the value of the formula,
    [10*weight + 6.25*height - 5*age] plus 5 for ['male'] and minus 161
    for ['female'], and leaves the world untouched. *)
Theorem calculate_bmr_no_bounds_check (w h a : num) (g : string)
        (wd : world) :
  valid_gender g = true ->
  (forall msg, fst (calculate_bmr w h a g wd) <> Raise (ValueError msg)) /\
  overflow_only (fst (calculate_bmr w h a g wd)) /\
  (forall (x y : float) (n : Z),
      w = PyFloat x -> h = PyFloat y -> a = PyInt n ->
      convertible (5 * n) = true ->
      calculate_bmr w h a g wd
      = (Return (PyFloat (if String.eqb (lower g) "male"
                          then fadd (base_formula x y n) (round_int 5)
                          else fsub (base_formula x y n) (round_int 161))),
         wd)).
Proof.
  intros Hg.
  pose proof (calculate_bmr_overflow_only w h a g wd Hg) as Ho.
  split; [|split].
  - intros msg E. rewrite E in Ho. simpl in Ho. discriminate.
  - exact Ho.
  - intros x y n -> -> -> Hn.
    apply calculate_bmr_accepted; assumption.
Qed.

Lemma calculate_bmr_no_bounds_check_witness :
  valid_gender "MALE" = true /\
  convertible (5 * -20) = true /\
  calculate_bmr (PyFloat zero) (PyFloat (decimal (-165) 0)) (PyInt (-20))
                "MALE" initial_world
  = (Return (PyFloat (fadd (base_formula zero (decimal (-165) 0) (-20))
                           (round_int 5))), initial_world) /\
  fadd (base_formula zero (decimal (-165) 0) (-20)) (round_int 5)
  = decimal (-92625) 2.
Proof.
  split; [reflexivity|]. split; [reflexivity|]. split; [|reflexivity].
  apply (proj2 (proj2 (calculate_bmr_no_bounds_check
                         (PyFloat zero) (PyFloat (decimal (-165) 0))
                         (PyInt (-20)) "MALE" initial_world eq_refl))
           zero (decimal (-165) 0) (-20));
    reflexivity.
Defined.

(** C8: both functions are free of hidden state.  A call leaves the world
    (the activity-factor table and everything else) exactly as it found
    it; calling again gives the same outcome, value or error;
    [calculate_bmr] gives the same outcome in every world, and
    [calculate_tdee] in every world that holds the same table. *)
Theorem calls_deterministic_stateless (w h a bmr : num) (g s : string)
        (wd wd' : world) (out : list string) :
  snd (calculate_bmr w h a g wd) = wd /\
  snd (calculate_tdee bmr s wd) = wd /\
  fst (calculate_bmr w h a g (snd (calculate_bmr w h a g wd)))
  = fst (calculate_bmr w h a g wd) /\
  fst (calculate_tdee bmr s (snd (calculate_tdee bmr s wd)))
  = fst (calculate_tdee bmr s wd) /\
  fst (calculate_bmr w h a g wd') = fst (calculate_bmr w h a g wd) /\
  fst (calculate_tdee bmr s {| ACTIVITY_FACTORS := ACTIVITY_FACTORS wd;
                               stdout := out |})
  = fst (calculate_tdee bmr s wd).
Proof.
  assert (Hb : snd (calculate_bmr w h a g wd) = wd)
    by now rewrite calculate_bmr_stateless.
  assert (Ht : snd (calculate_tdee bmr s wd) = wd)
    by now rewrite calculate_tdee_stateless.
  repeat split.
  - exact Hb.
  - exact Ht.
  - now rewrite Hb.
  - now rewrite Ht.
  - rewrite (calculate_bmr_stateless w h a g wd').
    now rewrite (calculate_bmr_stateless w h a g wd).
  - rewrite (calculate_tdee_stateless bmr s wd).
    now rewrite (calculate_tdee_stateless bmr s (Build_world _ out)).
Qed.

(** C9: on weight 53, height 165, age 20 and gender ["male"],
    [calculate_bmr] returns exactly 1466.25; [calculate_tdee] of that
    with ["lightly_active"] returns exactly 2016.09375; and the
    demonstration block, which passes these very inputs, ends by printing
    the ceiling 2017. *)
Theorem demonstration_scenario (show_round2 : num -> string) :
  calculate_bmr (PyInt 53) (PyInt 165) (PyInt 20) "male" initial_world
  = (Return (PyFloat (decimal 146625 2)), initial_world) /\
  exactly (decimal 146625 2) 146625 100 /\
  calculate_tdee (PyFloat (decimal 146625 2)) "lightly_active" initial_world
  = (Return (PyFloat (decimal 201609375 5)), initial_world) /\
  exactly (decimal 201609375 5) 201609375 100000 /\
  math_ceil (PyFloat (decimal 201609375 5)) = Return 2017 /\
  fst (main show_round2 initial_world) = Return tt /\
  last (stdout (snd (main show_round2 initial_world))) ""
  = "2. Maintenance Calories (TDEE): 2017 kcal/day".
Proof.
  repeat split; vm_compute; reflexivity.
Qed.

(** Every value of the activity-factor table is a float in [[1, 2)]: a
    full 53-digit mantissa at exponent -52. *)
Lemma activity_factor_shape (k : string) (v : num) :
  dict_get k (ACTIVITY_FACTORS initial_world) = Some v ->
  exists mf : positive,
    v = PyFloat (S754_finite false mf (-52)) /\
    digits2_pos mf = 53%positive.
Proof.
  cbn [initial_world ACTIVITY_FACTORS dict_get].
  repeat (destruct (String.eqb k _);
          [intros H; injection H as <-; eexists; split;
           [vm_compute; reflexivity | reflexivity] |]).
  discriminate.
Qed.

(** C10: for every float bmr that compares as at least zero and every
    activity level that normalizes to a key of the table,
    [calculate_tdee] returns a float that is at least bmr; every factor
    of the table is at least 1.2. *)
Theorem calculate_tdee_at_least_bmr (bmr : float) (s : string) (wd : world) :
  table_intact wd ->
  well_formed bmr = true ->
  fle zero bmr = true ->
  dict_mem (normalize s) (ACTIVITY_FACTORS wd) = true ->
  Forall (fun kv => exists f, snd kv = PyFloat f /\ fle (decimal 12 1) f = true)
         (ACTIVITY_FACTORS wd) /\
  exists tdee : float,
    calculate_tdee (PyFloat bmr) s wd = (Return (PyFloat tdee), wd) /\
    fle bmr tdee = true.
Proof.
  intros Hw Hwf H0 Hmem. split.
  - rewrite Hw. cbn [initial_world ACTIVITY_FACTORS].
    repeat (constructor; [eexists; split; [reflexivity | vm_compute; reflexivity]|]).
    constructor.
  - unfold dict_mem in Hmem.
    destruct (dict_get (normalize s) (ACTIVITY_FACTORS wd)) as [v|] eqn:Hv;
      [|discriminate].
    rewrite (calculate_tdee_lookup _ _ _ _ Hv).
    rewrite Hw in Hv.
    destruct (activity_factor_shape _ _ Hv) as (mf & -> & Hmf).
    exists (fmul bmr (S754_finite false mf (-52))). split; [reflexivity|].
    apply fmul_factor_ge; assumption.
Qed.

Lemma calculate_tdee_at_least_bmr_witness :
  well_formed (decimal 146625 2) = true /\
  fle zero (decimal 146625 2) = true /\
  exists tdee : float,
    calculate_tdee (PyFloat (decimal 146625 2)) "Super Active" initial_world
    = (Return (PyFloat tdee), initial_world) /\
    fle (decimal 146625 2) tdee = true.
Proof.
  split; [reflexivity|]. split; [reflexivity|].
  apply (calculate_tdee_at_least_bmr (decimal 146625 2) "Super Active"
                                     initial_world); reflexivity.
Defined.

End CalculatorFacts.

(** ** Exact arithmetic in binary64

    Rounding sees the number and not the way it is written; integers and
    quarter-integers below [2^53] quarters are floats, and sums,
    differences and the product by [6.25] of such floats are the nearest
    floats to the exact results. *)

Module Binary64Exact.
Import PyNum Calculator PyNumFacts Binary64Facts.

(** [iter_pos] is the library's iteration. *)
Lemma iter_pos_iter {A} (f : A -> A) (p : positive) (x : A) :
  iter_pos f p x = Pos.iter f x p.
Proof.
  revert x. induction p as [p IH|p IH|]; intros x; cbn [iter_pos Pos.iter].
  - rewrite !IH. rewrite <- Pos.iter_swap. now rewrite <- Pos.iter_swap.
  - now rewrite !IH.
  - reflexivity.
Qed.

Lemma iter_pos_add {A} (f : A -> A) (p q : positive) (x : A) :
  iter_pos f (p + q) x = iter_pos f q (iter_pos f p x).
Proof. rewrite !iter_pos_iter, Pos.add_comm. apply Pos.iter_add. Qed.

(** Shifting out zero bits is exact. *)
Lemma shr_1_double (m : Z) :
  0 <= m ->
  shr_1 (Build_shr_record (m * 2) false false) = Build_shr_record m false false.
Proof.
  intros Hm. destruct m as [|p|p]; [reflexivity| |lia].
  now rewrite Z.mul_comm.
Qed.

Lemma iter_shr_1_exact (m : Z) (p : positive) :
  0 <= m ->
  iter_pos shr_1 p (Build_shr_record (m * 2 ^ Z.pos p) false false)
  = Build_shr_record m false false.
Proof.
  intros Hm. rewrite iter_pos_iter.
  induction p as [|p IH] using Pos.peano_ind.
  - cbn [Pos.iter]. change (2 ^ 1) with 2. now apply shr_1_double.
  - rewrite Pos.iter_succ_r, Pos2Z.inj_succ, Z.pow_succ_r by lia.
    replace (m * (2 * 2 ^ Z.pos p)) with (m * 2 ^ Z.pos p * 2) by ring.
    rewrite shr_1_double; [exact IH|].
    apply Z.mul_nonneg_nonneg; lia.
Qed.

(** [shr] by [k] bits of a multiple of [2^k]: nothing is lost. *)
Lemma shr_multiple (m e k : Z) :
  0 <= m -> 0 <= k ->
  shr (Build_shr_record (m * 2 ^ k) false false) e k
  = (Build_shr_record m false false, e + k).
Proof.
  intros Hm Hk. destruct k as [|p|p]; [| |lia].
  - cbn [shr]. now rewrite Z.mul_1_r, Z.add_0_r.
  - cbn [shr]. now rewrite iter_shr_1_exact.
Qed.

(** Shifting by [j + k] bits is shifting by [j], then by [k]. *)
Lemma shr_shr (mrs : shr_record) (e j k : Z) :
  0 <= j -> 0 <= k ->
  shr mrs e (j + k) = shr (fst (shr mrs e j)) (snd (shr mrs e j)) k.
Proof.
  intros Hj Hk.
  destruct j as [|p|p]; [now rewrite Z.add_0_l| |lia].
  destruct k as [|q|q]; [|  |lia].
  - rewrite Z.add_0_r. cbn [shr fst snd]. reflexivity.
  - cbn [shr fst snd Z.add]. rewrite iter_pos_add.
    f_equal. rewrite Pos2Z.inj_add. ring.
Qed.

Lemma digits2_pos_eq (p : positive) (d : Z) :
  2 ^ (d - 1) <= Z.pos p < 2 ^ d -> Z.pos (digits2_pos p) = d.
Proof.
  intros [Hl Hu]. pose proof (digits2_pos_unique p d Hu) as H1.
  pose proof (digits2_pos_bounds p) as [_ B].
  assert (2 ^ (d - 1) < 2 ^ Z.pos (digits2_pos p)) as L by lia.
  apply Z.pow_lt_mono_r_iff in L; lia.
Qed.

Lemma digits2_pos_scale (p q : positive) (j : Z) :
  0 <= j -> Z.pos q = Z.pos p * 2 ^ j ->
  Z.pos (digits2_pos q) = Z.pos (digits2_pos p) + j.
Proof.
  intros Hj Hq. pose proof (digits2_pos_bounds p) as [Bl Bu].
  apply digits2_pos_eq. rewrite Hq.
  replace (Z.pos (digits2_pos p) + j - 1)
    with (Z.pos (digits2_pos p) - 1 + j) by lia.
  rewrite !Z.pow_add_r by lia.
  assert (0 < 2 ^ j) by (apply Z.pow_pos_nonneg; lia).
  split; [apply Z.mul_le_mono_nonneg_r | apply Z.mul_lt_mono_pos_r]; lia.
Qed.

Lemma iter_xO_Z (p d : positive) :
  Z.pos (Pos.iter xO p d) = Z.pos p * 2 ^ Z.pos d.
Proof.
  induction d as [|d IH] using Pos.peano_ind.
  - cbn [Pos.iter]. change (2 ^ 1) with 2. lia.
  - rewrite Pos.iter_succ, Pos2Z.inj_xO, IH, Pos2Z.inj_succ, Z.pow_succ_r by lia.
    ring.
Qed.

(** What [shl_align] leaves: the mantissa at the smaller exponent. *)
Lemma shl_align_Z (m : positive) (e e' : Z) :
  e' <= e ->
  Z.pos (fst (shl_align m e e')) = Z.pos m * 2 ^ (e - e') /\
  snd (shl_align m e e') = e'.
Proof.
  intros H. unfold shl_align.
  destruct (e' - e) as [|d|d] eqn:E; try lia; cbn [fst snd].
  - replace (e - e') with 0 by lia. split; lia.
  - rewrite iter_xO_Z. replace (e - e') with (Z.pos d) by lia. split; lia.
Qed.

Lemma shl_align_id (m : positive) (e e' : Z) :
  e <= e' -> shl_align m e e' = (m, e).
Proof.
  intros H. unfold shl_align. destruct (e' - e) eqn:E; try reflexivity. lia.
Qed.

(** The first step of rounding sees the number, not its writing: a
    mantissa with [j] more low zero bits at an exponent [j] lower is
    shifted to the same place. *)
Lemma shr_fexp_scale (p q : positive) (e j : Z) :
  0 <= j -> Z.pos q = Z.pos p * 2 ^ j ->
  e - j <= fexp 53 1024 (Z.pos (digits2_pos p) + e) ->
  shr_fexp 53 1024 (Z.pos q) (e - j) loc_Exact
  = if fexp 53 1024 (Z.pos (digits2_pos p) + e) <? e
    then (Build_shr_record
            (Z.pos p * 2 ^ (e - fexp 53 1024 (Z.pos (digits2_pos p) + e)))
            false false,
          fexp 53 1024 (Z.pos (digits2_pos p) + e))
    else shr_fexp 53 1024 (Z.pos p) e loc_Exact.
Proof.
  intros Hj Hq Hfe. unfold shr_fexp. cbn [Zdigits2 shr_record_of_loc].
  rewrite (digits2_pos_scale p q j Hj Hq).
  replace (Z.pos (digits2_pos p) + j + (e - j))
    with (Z.pos (digits2_pos p) + e) by lia.
  set (fe := fexp 53 1024 (Z.pos (digits2_pos p) + e)) in *.
  destruct (Z.ltb_spec fe e) as [Hlt|Hge].
  - rewrite Hq.
    replace (Z.pos p * 2 ^ j)
      with (Z.pos p * 2 ^ (e - fe) * 2 ^ (fe - (e - j))).
    + rewrite shr_multiple; [f_equal; lia | | lia].
      apply Z.mul_nonneg_nonneg; [lia|]. apply Z.pow_nonneg; lia.
    + rewrite <- Z.mul_assoc, <- Z.pow_add_r by lia. f_equal. f_equal. lia.
  - replace (fe - (e - j)) with (j + (fe - e)) by lia.
    rewrite shr_shr by lia. rewrite Hq, shr_multiple by lia.
    cbn [fst snd]. now replace (e - j + j) with e by lia.
Qed.

Lemma binary_round_aux_congr (s : bool) (m1 m2 e1 e2 : Z) (l1 l2 : location) :
  shr_fexp 53 1024 m1 e1 l1 = shr_fexp 53 1024 m2 e2 l2 ->
  binary_round_aux 53 1024 s m1 e1 l1 = binary_round_aux 53 1024 s m2 e2 l2.
Proof. unfold binary_round_aux. now intros ->. Qed.

(** A mantissa already at its exponent is not shifted. *)
Lemma shr_fexp_canonical (m : positive) (e : Z) :
  fexp 53 1024 (Z.pos (digits2_pos m) + e) = e ->
  shr_fexp 53 1024 (Z.pos m) e loc_Exact
  = (Build_shr_record (Z.pos m) false false, e).
Proof.
  intros H. unfold shr_fexp. cbn [Zdigits2 shr_record_of_loc].
  now rewrite H, Z.sub_diag.
Qed.

(** Hence rounding depends on the number only. *)
Lemma binary_round_scale (s : bool) (p q : positive) (e j : Z) :
  0 <= j -> Z.pos q = Z.pos p * 2 ^ j ->
  binary_round 53 1024 s q (e - j) = binary_round 53 1024 s p e.
Proof.
  intros Hj Hq. unfold binary_round.
  rewrite (digits2_pos_scale p q j Hj Hq).
  replace (Z.pos (digits2_pos p) + j + (e - j))
    with (Z.pos (digits2_pos p) + e) by lia.
  set (fe := fexp 53 1024 (Z.pos (digits2_pos p) + e)).
  destruct (Z.lt_ge_cases fe (e - j)) as [HA|HBC].
  - (* both are shifted left to the exponent [fe] *)
    pose proof (shl_align_Z q (e - j) fe ltac:(lia)) as [Q1 Q2].
    pose proof (shl_align_Z p e fe ltac:(lia)) as [P1 P2].
    destruct (shl_align q (e - j) fe) as [mq eq'].
    destruct (shl_align p e fe) as [mp ep]. cbn [fst snd] in *.
    subst eq' ep. replace mq with mp; [reflexivity|].
    apply Pos2Z.inj. rewrite Q1, P1, Hq, <- Z.mul_assoc, <- Z.pow_add_r by lia.
    f_equal. f_equal. lia.
  - rewrite (shl_align_id q) by lia.
    destruct (Z.lt_ge_cases fe e) as [HB|HC].
    + (* the one is shifted left, the other right, to the same place *)
      pose proof (shl_align_Z p e fe ltac:(lia)) as [P1 P2].
      destruct (shl_align p e fe) as [mp ep]. cbn [fst snd] in *. subst ep.
      apply binary_round_aux_congr.
      rewrite (shr_fexp_scale p q e j Hj Hq HBC). fold fe.
      replace (fe <? e) with true by (symmetry; apply Z.ltb_lt; lia).
      rewrite shr_fexp_canonical; [now rewrite P1|].
      rewrite (digits2_pos_scale p mp (e - fe) ltac:(lia) P1).
      now replace (Z.pos (digits2_pos p) + (e - fe) + fe)
        with (Z.pos (digits2_pos p) + e) by lia.
    + rewrite (shl_align_id p) by lia.
      apply binary_round_aux_congr.
      rewrite (shr_fexp_scale p q e j Hj Hq HBC). fold fe.
      now replace (fe <? e) with false by (symmetry; apply Z.ltb_ge; lia).
Qed.

Lemma binary_normalize_scale (n e j : Z) (sz : bool) :
  0 <= j ->
  binary_normalize 53 1024 (n * 2 ^ j) (e - j) sz
  = binary_normalize 53 1024 n e sz.
Proof.
  intros Hj. assert (0 < 2 ^ j) by (apply Z.pow_pos_nonneg; lia).
  destruct n as [|p|p]; [reflexivity| |].
  - destruct (Z.pos p * 2 ^ j) as [|q|q] eqn:E; try lia.
    cbn [binary_normalize]. now apply binary_round_scale.
  - destruct (Z.neg p * 2 ^ j) as [|q|q] eqn:E; try lia.
    cbn [binary_normalize]. apply binary_round_scale; [assumption|lia].
Qed.

(** A mantissa at its own exponent, below the largest one, is its own
    rounding. *)
Lemma binary_round_aux_canonical (s : bool) (m : positive) (e : Z) :
  fexp 53 1024 (Z.pos (digits2_pos m) + e) = e -> e <= 971 ->
  binary_round_aux 53 1024 s (Z.pos m) e loc_Exact = S754_finite s m e.
Proof.
  intros Hc He. unfold binary_round_aux.
  rewrite (shr_fexp_canonical m e Hc).
  cbn [shr_m loc_of_shr_record round_nearest_even].
  rewrite (shr_fexp_canonical m e Hc). cbn [shr_m].
  now replace (e <=? 1024 - 53) with true by (symmetry; apply Z.leb_le; lia).
Qed.

(** An integer mantissa of at most 53 digits, in the normal range, is
    exact: rounding only fills the mantissa up to 53 digits. *)
Lemma binary_round_exact (s : bool) (p : positive) (e : Z) :
  Z.pos p < 2 ^ 53 ->
  -1074 <= Z.pos (digits2_pos p) + e - 53 <= 971 ->
  exists m : positive,
    binary_round 53 1024 s p e
    = S754_finite s m (Z.pos (digits2_pos p) + e - 53) /\
    Z.pos m = Z.pos p * 2 ^ (53 - Z.pos (digits2_pos p)) /\
    Z.pos (digits2_pos m) = 53.
Proof.
  intros Hp He. pose proof (digits2_pos_unique p 53 Hp) as Hd.
  unfold binary_round. rewrite fexp_binary64.
  set (d := Z.pos (digits2_pos p)) in *.
  replace (Z.max (d + e - 53) (-1074)) with (d + e - 53) by lia.
  pose proof (shl_align_Z p e (d + e - 53) ltac:(lia)) as [P1 P2].
  destruct (shl_align p e (d + e - 53)) as [mp ep]. cbn [fst snd] in *.
  subst ep. replace (e - (d + e - 53)) with (53 - d) in P1 by lia.
  assert (Hdm : Z.pos (digits2_pos mp) = 53).
  { rewrite (digits2_pos_scale p mp (53 - d) ltac:(lia) P1). fold d. lia. }
  exists mp. split; [|split; assumption].
  apply binary_round_aux_canonical; [|lia].
  rewrite Hdm, fexp_binary64. lia.
Qed.

Lemma quarters_shape (n : Z) :
  n <> 0 -> Z.abs n < 2 ^ 53 -> quarter_shape n (quarters n).
Proof.
  intros Hn Hb. unfold quarters, binary_normalize, prec, emax.
  destruct n as [|p|p]; [lia| |].
  - pose proof (digits2_pos_unique p 53 ltac:(lia)) as Hd.
    destruct (binary_round_exact false p (-2)) as (m & E & Hm & Hd53);
      [lia|lia|].
    exists m, (Z.pos (digits2_pos p) + -2 - 53).
    split; [exact E|]. split; [lia|]. split; [|exact Hd53].
    rewrite Hm. cbn [Z.abs]. f_equal. f_equal. lia.
  - pose proof (digits2_pos_unique p 53 ltac:(lia)) as Hd.
    destruct (binary_round_exact true p (-2)) as (m & E & Hm & Hd53);
      [lia|lia|].
    exists m, (Z.pos (digits2_pos p) + -2 - 53).
    split; [exact E|]. split; [lia|]. split; [|exact Hd53].
    rewrite Hm. cbn [Z.abs]. f_equal. f_equal. lia.
Qed.

Lemma round_int_quarters (n : Z) : round_int n = quarters (4 * n).
Proof.
  unfold round_int, quarters, prec, emax.
  replace (4 * n) with (n * 2 ^ 2) by (change (2 ^ 2) with 4; ring).
  change (-2) with (0 - 2). now rewrite binary_normalize_scale.
Qed.

(** The signed mantissa of a quarter-integer float, aligned at a smaller
    exponent. *)
Lemma quarter_aligned (n : Z) (s : bool) (m : positive) (e ez : Z) :
  s = (n <? 0) -> Z.pos m = Z.abs n * 2 ^ (-2 - e) -> e <= -2 -> ez <= e ->
  cond_Zopp s (Z.pos (fst (shl_align m e ez))) = n * 2 ^ (-2 - ez).
Proof.
  intros -> Hm He Hz.
  destruct (shl_align_Z m e ez Hz) as [-> _]. rewrite Hm.
  rewrite <- Z.mul_assoc, <- Z.pow_add_r by lia.
  replace (-2 - e + (e - ez)) with (-2 - ez) by lia.
  unfold cond_Zopp. destruct (Z.ltb_spec n 0); lia.
Qed.

Lemma fadd_quarters (a b : Z) :
  Z.abs a < 2 ^ 53 -> Z.abs b < 2 ^ 53 ->
  fadd (quarters a) (quarters b) = quarters (a + b).
Proof.
  intros Ha Hb.
  destruct (Z.eq_dec a 0) as [->|Na].
  { rewrite Z.add_0_l. destruct (Z.eq_dec b 0) as [->|Nb]; [reflexivity|].
    destruct (quarters_shape b Nb Hb) as (m & e & -> & _). reflexivity. }
  destruct (quarters_shape a Na Ha) as (ma & ea & Ea & Hea & Hma & _).
  destruct (Z.eq_dec b 0) as [->|Nb].
  { rewrite Z.add_0_r, Ea. reflexivity. }
  destruct (quarters_shape b Nb Hb) as (mb & eb & Eb & Heb & Hmb & _).
  rewrite Ea, Eb. unfold fadd, SFadd.
  rewrite (quarter_aligned a _ ma ea (Z.min ea eb)) by (auto; lia).
  rewrite (quarter_aligned b _ mb eb (Z.min ea eb)) by (auto; lia).
  rewrite <- Z.mul_add_distr_r. unfold quarters.
  replace (Z.min ea eb) with (-2 - (-2 - Z.min ea eb)) at 2 by lia.
  apply binary_normalize_scale. lia.
Qed.

Lemma quarters_opp (n : Z) : n <> 0 -> quarters (- n) = SFopp (quarters n).
Proof.
  intros Hn.
  unfold quarters, binary_normalize. destruct n as [|p|p]; cbn [Z.opp].
  - contradiction.
  - unfold binary_round, binary_round_aux.
    destruct (shl_align p (-2) _) as [mz ez].
    destruct (shr_fexp _ _ _ _ _) as [mrs1 e1].
    destruct (shr_fexp _ _ _ _ _) as [mrs2 e2].
    destruct (shr_m mrs2); try reflexivity.
    destruct (e2 <=? emax - prec); reflexivity.
  - unfold binary_round, binary_round_aux.
    destruct (shl_align p (-2) _) as [mz ez].
    destruct (shr_fexp _ _ _ _ _) as [mrs1 e1].
    destruct (shr_fexp _ _ _ _ _) as [mrs2 e2].
    destruct (shr_m mrs2); try reflexivity.
    destruct (e2 <=? emax - prec); reflexivity.
Qed.

Lemma fsub_quarters (a b : Z) :
  Z.abs a < 2 ^ 53 -> Z.abs b < 2 ^ 53 ->
  fsub (quarters a) (quarters b) = quarters (a - b).
Proof.
  intros Ha Hb.
  destruct (Z.eq_dec b 0) as [->|Nb].
  { rewrite Z.sub_0_r. destruct (Z.eq_dec a 0) as [->|Na]; [reflexivity|].
    destruct (quarters_shape a Na Ha) as (m & e & -> & _). reflexivity. }
  destruct (quarters_shape b Nb Hb) as (mb & eb & Eb & Heb & Hmb & _).
  destruct (Z.eq_dec a 0) as [->|Na].
  { rewrite Z.sub_0_l, quarters_opp, Eb by assumption. reflexivity. }
  destruct (quarters_shape a Na Ha) as (ma & ea & Ea & Hea & Hma & _).
  rewrite Ea, Eb. unfold fsub, SFsub.
  rewrite (quarter_aligned a _ ma ea (Z.min ea eb)) by (auto; lia).
  rewrite (quarter_aligned b _ mb eb (Z.min ea eb)) by (auto; lia).
  rewrite <- Z.mul_sub_distr_r. unfold quarters.
  replace (Z.min ea eb) with (-2 - (-2 - Z.min ea eb)) at 2 by lia.
  apply binary_normalize_scale. lia.
Qed.

(** With at least 53 digits in hand, rounding starts without a left
    shift. *)
Lemma binary_round_long (s : bool) (m : positive) (e : Z) :
  53 <= Z.pos (digits2_pos m) ->
  binary_round 53 1024 s m e = binary_round_aux 53 1024 s (Z.pos m) e loc_Exact.
Proof.
  intros H. unfold binary_round. rewrite shl_align_id; [reflexivity|].
  rewrite fexp_binary64. lia.
Qed.

(** The product of the literal [6.25] and an int is the nearest float to
    [25 h / 4]. *)
Lemma fmul_6_25 (h : Z) :
  Z.abs h < 2 ^ 51 ->
  fmul (decimal 625 2) (round_int h) = quarters (25 * h).
Proof.
  intros Hh. destruct (Z.eq_dec h 0) as [->|Nh]; [reflexivity|].
  rewrite round_int_quarters.
  destruct (quarters_shape (4 * h)) as (m & e & E & He & Hm & Hd);
    [lia | change (2 ^ 53) with (4 * 2 ^ 51); lia |].
  rewrite E, literal_6_25. unfold fmul, SFmul, prec, emax.
  cbn [xorb].
  set (a := 7036874417766400%positive).
  assert (Ha : Z.pos a = 25 * 2 ^ 48) by reflexivity.
  pose proof (digits2_pos_bounds m) as Bm. rewrite Hd in Bm.
  assert (HM : Z.pos (a * m) = Z.abs (25 * h) * 2 ^ (48 - e)).
  { rewrite Pos2Z.inj_mul, Ha, Hm.
    replace (48 - e) with (48 + 2 + (-2 - e)) by lia.
    rewrite !Z.pow_add_r by lia. change (2 ^ 2) with 4.
    rewrite !Z.abs_mul. change (Z.abs 25) with 25. change (Z.abs 4) with 4.
    ring. }
  rewrite <- binary_round_long.
  - replace (-50 + e) with (-2 - (48 - e)) by lia.
    unfold quarters, binary_normalize, prec, emax.
    destruct (25 * h) as [|p|p] eqn:Ep; [lia| |].
    + replace (4 * h <? 0) with false by (symmetry; apply Z.ltb_ge; lia).
      apply binary_round_scale; [lia | exact HM].
    + replace (4 * h <? 0) with true by (symmetry; apply Z.ltb_lt; lia).
      apply binary_round_scale; [lia | exact HM].
  - pose proof (digits2_pos_bounds (a * m)) as [_ BM].
    assert (2 ^ 52 < 2 ^ Z.pos (digits2_pos (a * m))) as L.
    { apply Z.le_lt_trans with (Z.pos (a * m)); [|exact BM].
      rewrite Pos2Z.inj_mul, Ha. change (53 - 1) with 52 in Bm. nia. }
    apply Z.pow_lt_mono_r_iff in L; lia.
Qed.

Lemma exactly_quarters (n : Z) :
  Z.abs n < 2 ^ 53 -> exactly (quarters n) n 4.
Proof.
  intros Hn. destruct (Z.eq_dec n 0) as [->|Nn]; [reflexivity|].
  destruct (quarters_shape n Nn Hn) as (m & e & -> & He & Hm & _).
  unfold exactly.
  replace (0 <=? e) with false by (symmetry; apply Z.leb_gt; lia).
  assert (Z.pos m * 4 = Z.abs n * 2 ^ (- e)) as H.
  { rewrite Hm. replace (- e) with (-2 - e + 2) by lia.
    rewrite Z.pow_add_r by lia. change (2 ^ 2) with 4. ring. }
  destruct (Z.ltb_spec n 0); [|lia].
  change (Z.neg m) with (- Z.pos m). lia.
Qed.

End Binary64Exact.

(** ** Order and rounding in binary64

    Right shifts record what they drop, rounding to nearest is monotone,
    and so is the multiplication by a factor in [[1, 2)]. *)

Module Binary64Order.
Import PyNum Binary64Facts Binary64Exact.

Lemma shr_1_first (n : Z) :
  0 <= n -> shr_1 (Build_shr_record n false false) = shifted n 1.
Proof.
  intros Hn. unfold shifted. change (1 - 1) with 0.
  change (2 ^ 0) with 1. change (2 ^ 1) with 2.
  rewrite Z.div_1_r, Z.mod_1_r. cbn [Z.eqb negb].
  rewrite <- Z.div2_div.
  destruct n as [|[p|p|]|p]; try reflexivity. lia.
Qed.

Lemma shr_1_shifted (n j : Z) :
  0 <= n -> 1 <= j -> shr_1 (shifted n j) = shifted n (j + 1).
Proof.
  intros Hn Hj. unfold shifted.
  assert (H2 : 0 < 2 ^ (j - 1)) by (apply Z.pow_pos_nonneg; lia).
  assert (E : 2 ^ j = 2 ^ (j - 1) * 2).
  { replace j with (j - 1 + 1) at 1 by lia.
    rewrite Z.pow_add_r by lia. reflexivity. }
  replace (j + 1 - 1) with j by lia.
  set (m := n / 2 ^ j).
  assert (Hm : 0 <= m) by (apply Z.div_pos; lia).
  assert (Hs : orb (Z.odd (n / 2 ^ (j - 1))) (negb (n mod 2 ^ (j - 1) =? 0))
               = negb (n mod 2 ^ j =? 0)).
  { rewrite E, Z.rem_mul_r by lia.
    pose proof (Z.mod_pos_bound n (2 ^ (j - 1)) H2) as Br.
    rewrite Zmod_odd.
    destruct (Z.odd (n / 2 ^ (j - 1))); cbn [orb].
    - symmetry. apply negb_true_iff, Z.eqb_neq. lia.
    - rewrite Z.mul_0_r, Z.add_0_r. reflexivity. }
  assert (Hq : n / 2 ^ (j + 1) = m / 2).
  { unfold m. rewrite Z.pow_add_r, Z.div_div by lia. reflexivity. }
  rewrite Hq, <- Hs, <- Z.div2_div.
  unfold shr_1.
  destruct m as [|[p|p|]|p]; try reflexivity. lia.
Qed.

Lemma iter_shr_1_shifted (n : Z) (p : positive) :
  0 <= n ->
  iter_pos shr_1 p (Build_shr_record n false false) = shifted n (Z.pos p).
Proof.
  intros Hn. rewrite iter_pos_iter.
  induction p as [|p IH] using Pos.peano_ind.
  - cbn [Pos.iter]. now apply shr_1_first.
  - rewrite Pos.iter_succ, IH, shr_1_shifted, Pos2Z.inj_succ by lia.
    reflexivity.
Qed.

Lemma rne_bounds (n k : Z) : n / 2 ^ k <= rne n k <= n / 2 ^ k + 1.
Proof. unfold rne. apply round_nearest_even_bounds. Qed.

(** The same in arithmetic: with [a] the quotient by [2^(k-1)] and [t]
    the rest, the result is [a / 2] or one more. *)
Lemma rne_arith (n k : Z) :
  0 <= n -> 1 <= k ->
  rne n k =
  let a := n / 2 ^ (k - 1) in
  let q := a / 2 in
  if Z.odd a
  then (if negb (n mod 2 ^ (k - 1) =? 0) then q + 1
        else if Z.even q then q else q + 1)
  else q.
Proof.
  intros Hn Hk. unfold rne, shifted. cbn [shr_m loc_of_shr_record].
  assert (Hq : n / 2 ^ k = n / 2 ^ (k - 1) / 2).
  { replace k with (k - 1 + 1) at 1 by lia.
    rewrite Z.pow_add_r, Z.div_div by lia. reflexivity. }
  rewrite Hq. cbv zeta.
  destruct (Z.odd (n / 2 ^ (k - 1))), (negb (n mod 2 ^ (k - 1) =? 0));
    reflexivity.
Qed.

Lemma rne_mono (n1 n2 k : Z) :
  0 <= n1 <= n2 -> 1 <= k -> rne n1 k <= rne n2 k.
Proof.
  intros Hn Hk. rewrite !rne_arith by lia. cbv zeta.
  assert (H2 : 0 < 2 ^ (k - 1)) by (apply Z.pow_pos_nonneg; lia).
  pose proof (Z.div_le_mono n1 n2 (2 ^ (k - 1)) H2 ltac:(lia)) as Ha.
  pose proof (Z.div_mod n1 (2 ^ (k - 1)) ltac:(lia)) as D1.
  pose proof (Z.div_mod n2 (2 ^ (k - 1)) ltac:(lia)) as D2.
  pose proof (Z.mod_pos_bound n1 (2 ^ (k - 1)) H2) as B1.
  pose proof (Z.mod_pos_bound n2 (2 ^ (k - 1)) H2) as B2.
  set (a1 := n1 / 2 ^ (k - 1)) in *. set (a2 := n2 / 2 ^ (k - 1)) in *.
  set (t1 := n1 mod 2 ^ (k - 1)) in *. set (t2 := n2 mod 2 ^ (k - 1)) in *.
  assert (Ht : a1 = a2 -> t1 <= t2) by (intros E; rewrite E in D1; lia).
  set (h := 2 ^ (k - 1)) in *.
  clearbody a1 a2 t1 t2 h. clear D1 D2 H2 Hn.
  pose proof (Zmod_odd a1) as O1. pose proof (Zmod_odd a2) as O2.
  pose proof (Zmod_even (a1 / 2)) as E1. pose proof (Zmod_even (a2 / 2)) as E2.
  destruct (Z.eqb_spec t1 0), (Z.eqb_spec t2 0); cbn [negb];
    destruct (Z.odd a1) eqn:Oa1, (Z.odd a2) eqn:Oa2;
    destruct (Z.even (a1 / 2)) eqn:Ea1, (Z.even (a2 / 2)) eqn:Ea2;
    try rewrite Oa1 in O1; try rewrite Oa2 in O2;
    try rewrite Ea1 in E1; try rewrite Ea2 in E2;
    Z.to_euclidean_division_equations; lia.
Qed.

Lemma second_shift (s : bool) (m e : Z) :
  fits m e ->
  (let '(mrs, e') := shr_fexp 53 1024 m e loc_Exact in
   match shr_m mrs with
   | 0 => S754_zero s
   | Z.pos p => if e' <=? 1024 - 53 then S754_finite s p e' else S754_infinity s
   | Z.neg _ => S754_nan
   end) = pack s m e.
Proof.
  intros (He & Hm & Hfull). unfold pack.
  destruct m as [|p|p]; [| |lia].
  - unfold shr_fexp. cbn [Zdigits2 shr_record_of_loc]. rewrite fexp_binary64.
    destruct (Z.max (0 + e - 53) (-1074) - e) eqn:E; try reflexivity. lia.
  - destruct (Z.ltb_spec (Z.pos p) (2 ^ 53)) as [Hlt|Hge].
    + rewrite shr_fexp_canonical; [reflexivity|].
      pose proof (digits2_pos_unique p 53 Hlt) as Hd.
      rewrite fexp_binary64.
      destruct (Z.eq_dec e (-1074)) as [->|Hn]; [lia|].
      assert (Z.pos (digits2_pos p) = 53); [|lia].
      apply digits2_pos_eq. change (53 - 1) with 52. lia.
    + assert (p = 9007199254740992%positive) as -> by lia.
      unfold shr_fexp. cbn [Zdigits2 shr_record_of_loc]. rewrite fexp_binary64.
      change (Z.pos (digits2_pos 9007199254740992)) with 54.
      replace (Z.max (54 + e - 53) (-1074) - e) with 1 by lia.
      reflexivity.
Qed.

Lemma rounded_mantissa_fits (p : positive) (c : Z) :
  fits (rounded_mantissa p c) (fexp 53 1024 (Z.pos (digits2_pos p) + c)).
Proof.
  unfold fits, rounded_mantissa. cbv zeta.
  pose proof (digits2_pos_bounds p) as [Bl Bu].
  rewrite fexp_binary64.
  set (d := Z.pos (digits2_pos p)) in *.
  assert (Hd : 1 <= d) by (unfold d; lia).
  set (fe := Z.max (d + c - 53) (-1074)).
  split; [lia|].
  destruct (Z.leb_spec fe c) as [Hle|Hgt].
  - (* a left shift by [c - fe] *)
    assert (P : 0 < 2 ^ (c - fe)) by (apply Z.pow_pos_nonneg; lia).
    split; [split; [lia|]|].
    + apply Z.le_trans with (2 ^ d * 2 ^ (c - fe)); [nia|].
      rewrite <- Z.pow_add_r by lia. apply Z.pow_le_mono_r; lia.
    + intros Hn. apply Z.le_trans with (2 ^ (d - 1) * 2 ^ (c - fe)); [|nia].
      rewrite <- Z.pow_add_r by lia. apply Z.pow_le_mono_r; lia.
  - (* a right shift by [fe - c], then rounding *)
    pose proof (rne_bounds (Z.pos p) (fe - c)) as [Rl Ru].
    assert (P : 0 < 2 ^ (fe - c)) by (apply Z.pow_pos_nonneg; lia).
    assert (Q0 : 0 <= Z.pos p / 2 ^ (fe - c)) by (apply Z.div_pos; lia).
    split; [split; [lia|]|].
    + assert (Z.pos p / 2 ^ (fe - c) < 2 ^ 53); [|lia].
      apply Z.div_lt_upper_bound; [lia|].
      rewrite <- Z.pow_add_r by lia.
      apply Z.lt_le_trans with (2 ^ d); [lia|].
      apply Z.pow_le_mono_r; lia.
    + intros Hn. apply Z.le_trans with (Z.pos p / 2 ^ (fe - c)); [|lia].
      apply Z.div_le_lower_bound; [lia|].
      rewrite <- Z.pow_add_r by lia.
      apply Z.le_trans with (2 ^ (d - 1)); [|lia].
      apply Z.pow_le_mono_r; lia.
Qed.

(** Rounding, in one line. *)
Lemma binary_round_pack (s : bool) (p : positive) (c : Z) :
  binary_round 53 1024 s p c
  = pack s (rounded_mantissa p c) (fexp 53 1024 (Z.pos (digits2_pos p) + c)).
Proof.
  pose proof (rounded_mantissa_fits p c) as Hfit.
  unfold rounded_mantissa in *. cbv zeta in *.
  unfold binary_round.
  set (fe := fexp 53 1024 (Z.pos (digits2_pos p) + c)) in *.
  destruct (Z.leb_spec fe c) as [Hle|Hgt].
  - pose proof (shl_align_Z p c fe Hle) as [P1 P2].
    destruct (shl_align p c fe) as [mp ep]. cbn [fst snd] in *. subst ep.
    unfold binary_round_aux.
    rewrite shr_fexp_canonical.
    + cbn [shr_m loc_of_shr_record round_nearest_even].
      rewrite P1. now apply second_shift.
    + rewrite (digits2_pos_scale p mp (c - fe) ltac:(lia) P1).
      now replace (Z.pos (digits2_pos p) + (c - fe) + fe)
        with (Z.pos (digits2_pos p) + c) by lia.
  - rewrite shl_align_id by lia.
    unfold binary_round_aux, shr_fexp at 1.
    cbn [Zdigits2 shr_record_of_loc]. fold fe.
    destruct (fe - c) as [|k|k] eqn:Ek; try lia.
    cbn [shr]. rewrite iter_shr_1_shifted by lia.
    replace (c + Z.pos k) with fe by lia.
    now apply second_shift.
Qed.

Lemma finite_le (m1 m2 : positive) (e1 e2 : Z) :
  e1 < e2 \/ (e1 = e2 /\ Z.pos m1 <= Z.pos m2) ->
  SFleb (S754_finite false m1 e1) (S754_finite false m2 e2) = true.
Proof.
  unfold SFleb, SFcompare. intros [H|[-> H]].
  - apply Z.compare_lt_iff in H. now rewrite H.
  - rewrite Z.compare_refl.
    change (Pos.compare_cont Eq m1 m2) with (Pos.compare m1 m2).
    destruct (Pos.compare_spec m1 m2); try reflexivity. lia.
Qed.

Lemma pack_le_same (a b e : Z) :
  fits a e -> fits b e -> a <= b ->
  SFleb (pack false a e) (pack false b e) = true.
Proof.
  intros (_ & Ha & _) (_ & Hb & _) Hab. unfold pack.
  destruct a as [|pa|pa], b as [|pb|pb]; try lia; try reflexivity.
  - destruct (Z.pos pb <? 2 ^ 53), (e <=? 971), (e + 1 <=? 971); reflexivity.
  - destruct (Z.ltb_spec (Z.pos pa) (2 ^ 53)) as [La|La],
             (Z.ltb_spec (Z.pos pb) (2 ^ 53)) as [Lb|Lb]; try lia.
    + destruct (e <=? 971); [|reflexivity]. apply finite_le. lia.
    + destruct (Z.leb_spec e 971), (Z.leb_spec (e + 1) 971);
        try reflexivity; try lia.
      apply finite_le. lia.
    + destruct (e + 1 <=? 971); [|reflexivity]. apply finite_le. lia.
Qed.

Lemma pack_le_lt (a b e1 e2 : Z) :
  fits a e1 -> fits b e2 -> e1 < e2 ->
  SFleb (pack false a e1) (pack false b e2) = true.
Proof.
  intros (He1 & Ha & _) (_ & Hb & Hfull) He. unfold pack.
  assert (Hb52 : 2 ^ 52 <= b) by (apply Hfull; lia).
  change (2 ^ 52) with 4503599627370496 in Hb52.
  destruct b as [|pb|pb]; try lia.
  destruct a as [|pa|pa]; try lia.
  - destruct (Z.pos pb <? 2 ^ 53), (e2 <=? 971), (e2 + 1 <=? 971);
      reflexivity.
  - destruct (Z.ltb_spec (Z.pos pa) (2 ^ 53)) as [La|La],
             (Z.ltb_spec (Z.pos pb) (2 ^ 53)) as [Lb|Lb];
      destruct (Z.leb_spec e1 971), (Z.leb_spec (e1 + 1) 971),
               (Z.leb_spec e2 971), (Z.leb_spec (e2 + 1) 971);
      try reflexivity; try lia; apply finite_le; lia.
Qed.

Lemma digits2_pos_le (p1 p2 : positive) :
  Z.pos p1 <= Z.pos p2 ->
  Z.pos (digits2_pos p1) <= Z.pos (digits2_pos p2).
Proof.
  intros H. pose proof (digits2_pos_bounds p1) as [B1 _].
  pose proof (digits2_pos_bounds p2) as [_ B2].
  assert (2 ^ (Z.pos (digits2_pos p1) - 1) < 2 ^ Z.pos (digits2_pos p2)) as L
    by lia.
  apply Z.pow_lt_mono_r_iff in L; lia.
Qed.

(** Rounding is monotone. *)
Lemma binary_round_mono (p1 p2 : positive) (c : Z) :
  Z.pos p1 <= Z.pos p2 ->
  SFleb (binary_round 53 1024 false p1 c) (binary_round 53 1024 false p2 c)
  = true.
Proof.
  intros H. rewrite !binary_round_pack.
  pose proof (rounded_mantissa_fits p1 c) as F1.
  pose proof (rounded_mantissa_fits p2 c) as F2.
  pose proof (digits2_pos_le p1 p2 H) as Hd.
  assert (Hfe : fexp 53 1024 (Z.pos (digits2_pos p1) + c)
                <= fexp 53 1024 (Z.pos (digits2_pos p2) + c))
    by (rewrite !fexp_binary64; lia).
  destruct (Z.eq_dec (fexp 53 1024 (Z.pos (digits2_pos p1) + c))
                     (fexp 53 1024 (Z.pos (digits2_pos p2) + c))) as [E|N].
  - rewrite E in *. apply pack_le_same; try assumption.
    unfold rounded_mantissa. cbv zeta. rewrite E.
    set (fe := fexp 53 1024 (Z.pos (digits2_pos p2) + c)).
    destruct (Z.leb_spec fe c).
    + apply Z.mul_le_mono_nonneg_r; [apply Z.pow_nonneg|]; lia.
    + apply rne_mono; lia.
  - apply pack_le_lt; try assumption. lia.
Qed.

(** A rounded positive number lies between zero and the positive
    infinity. *)
Lemma binary_round_range (p : positive) (c : Z) (s : bool) :
  SFleb (S754_zero s) (binary_round 53 1024 false p c) = true /\
  SFleb (binary_round 53 1024 false p c) (S754_infinity false) = true.
Proof.
  rewrite binary_round_pack.
  destruct (rounded_mantissa_fits p c) as (_ & Hm & _).
  unfold pack.
  destruct (rounded_mantissa p c) as [|q|q]; [now split| |lia].
  destruct (Z.pos q <? 2 ^ 53),
           (fexp 53 1024 (Z.pos (digits2_pos p) + c) <=? 971),
           (fexp 53 1024 (Z.pos (digits2_pos p) + c) + 1 <=? 971);
    now split.
Qed.

(** The product of two finite floats, one of them with a full mantissa,
    is the rounding of the exact product. *)
Lemma fmul_binary_round (m mf : positive) (e ef : Z) :
  Z.pos (digits2_pos mf) = 53 ->
  fmul (S754_finite false m e) (S754_finite false mf ef)
  = binary_round 53 1024 false (m * mf) (e + ef).
Proof.
  intros Hf. unfold fmul, SFmul, prec, emax. cbn [xorb].
  rewrite binary_round_long; [reflexivity|].
  pose proof (digits2_pos_bounds mf) as [Bf _]. rewrite Hf in Bf.
  pose proof (digits2_pos_bounds (m * mf)) as [_ BM].
  assert (2 ^ 52 < 2 ^ Z.pos (digits2_pos (m * mf))) as L.
  { apply Z.le_lt_trans with (Z.pos (m * mf)); [|exact BM].
    rewrite Pos2Z.inj_mul. change (53 - 1) with 52 in Bf. nia. }
  apply Z.pow_lt_mono_r_iff in L; lia.
Qed.

(** Multiplication by factors in [[1, 2)] is monotone on the floats that
    compare as at least zero: a larger number and a larger factor give a
    product that is not smaller. *)
Lemma fmul_mono (x1 x2 : float) (mf1 mf2 : positive) :
  well_formed x1 = true -> well_formed x2 = true ->
  fle zero x1 = true -> fle x1 x2 = true ->
  Z.pos (digits2_pos mf1) = 53 -> Z.pos (digits2_pos mf2) = 53 ->
  Z.pos mf1 <= Z.pos mf2 ->
  fle (fmul x1 (S754_finite false mf1 (-52)))
      (fmul x2 (S754_finite false mf2 (-52))) = true.
Proof.
  intros W1 W2 H0 H12 D1 D2 Hf.
  destruct x1 as [s1|[]| |[] m1 e1]; try discriminate.
  - (* a zero *)
    destruct x2 as [s2|[]| |[] m2 e2]; try discriminate; try reflexivity.
    rewrite fmul_binary_round by assumption.
    apply binary_round_range.
  - (* the positive infinity *)
    destruct x2 as [s2|[]| |[] m2 e2]; try discriminate; reflexivity.
  - (* a positive number *)
    destruct x2 as [s2|[]| |[] m2 e2]; try discriminate.
    + rewrite fmul_binary_round by assumption.
      apply binary_round_range. exact false.
    + rewrite !fmul_binary_round by assumption.
      unfold well_formed, valid_binary, bounded, canonical_mantissa, prec, emax
        in W1, W2.
      apply andb_true_iff in W1. destruct W1 as [C1 _].
      apply andb_true_iff in W2. destruct W2 as [C2 _].
      apply Z.eqb_eq in C1. apply Z.eqb_eq in C2.
      rewrite fexp_binary64 in C1, C2.
      pose proof (digits2_pos_bounds m1) as [_ B1].
      pose proof (digits2_pos_bounds m2) as [B2 _].
      pose proof (digits2_pos_bounds mf1) as [Bf1 _]. rewrite D1 in Bf1.
      pose proof (digits2_pos_bounds mf2) as [Bf2 _]. rewrite D2 in Bf2.
      change (53 - 1) with 52 in Bf1, Bf2.
      unfold fle, SFleb, SFcompare in H12.
      destruct (Z.compare_spec e1 e2) as [E|L|G]; [| |discriminate].
      * (* the same exponent *)
        subst e2. apply binary_round_mono.
        change (Pos.compare_cont Eq m1 m2) with (Pos.compare m1 m2) in H12.
        assert (Z.pos m1 <= Z.pos m2)
          by (destruct (Pos.compare_spec m1 m2); try discriminate; lia).
        rewrite !Pos2Z.inj_mul. nia.
      * (* a smaller exponent: the other product, written at it, is
           larger *)
        assert (P : 0 < 2 ^ (e2 - e1)) by (apply Z.pow_pos_nonneg; lia).
        destruct (Z.pos (m2 * mf2) * 2 ^ (e2 - e1)) as [|q|q] eqn:Eq;
          try lia.
        rewrite <- (binary_round_scale false (m2 * mf2) q (e2 + -52)
                                       (e2 - e1) ltac:(lia) (eq_sym Eq)).
        replace (e2 + -52 - (e2 - e1)) with (e1 + -52) by lia.
        apply binary_round_mono. rewrite <- Eq, !Pos2Z.inj_mul.
        assert (Hm1 : Z.pos m1 < 2 ^ 53).
        { apply Z.lt_le_trans with (2 ^ Z.pos (digits2_pos m1)); [exact B1|].
          apply Z.pow_le_mono_r; lia. }
        assert (Hm2 : 2 ^ 52 <= Z.pos m2).
        { apply Z.le_trans with (2 ^ (Z.pos (digits2_pos m2) - 1));
            [|exact B2].
          apply Z.pow_le_mono_r; lia. }
        assert (P2 : 2 <= 2 ^ (e2 - e1)).
        { change 2 with (2 ^ 1) at 1. apply Z.pow_le_mono_r; lia. }
        change (2 ^ 53) with (2 * 2 ^ 52) in Hm1.
        set (h := 2 ^ 52) in *. set (t := 2 ^ (e2 - e1)) in *.
        clearbody h t. clear B1 B2 C1 C2 P.
        apply Z.le_trans with (2 * h * Z.pos mf2).
        { apply Z.mul_le_mono_nonneg; lia. }
        apply Z.le_trans with (Z.pos m2 * Z.pos mf2 * 2).
        { rewrite (Z.mul_comm (Z.pos m2 * Z.pos mf2) 2), Z.mul_assoc.
          apply Z.mul_le_mono_nonneg_r; lia. }
        apply Z.mul_le_mono_nonneg_l; lia.
Qed.

End Binary64Order.

(** ** More on the two functions and on the demonstration *)

Module CalculatorMore.
Import PyStr PyNum Calculator.
Import PyStrFacts PyNumFacts Binary64Facts CalculatorFacts Binary64Exact.
Import Binary64Order.

(** *** Outcomes *)

(** X1: whatever numbers it is given, ints and floats in any mix,
    [calculate_bmr] ends in one of three ways: it returns a float (never
    an int), it raises its own [ValueError] (exactly when the gender is
    not accepted), or it raises the [OverflowError] of an int too large
    for a float. *)
Theorem calculate_bmr_outcomes (w h a : num) (g : string) (wd : world) :
  match fst (calculate_bmr w h a g wd) with
  | Return v => is_float v = true /\ valid_gender g = true
  | Raise e =>
      (e = ValueError "Gender must be 'male' or 'female'."
       /\ valid_gender g = false) \/
      (e = OverflowError "int too large to convert to float"
       /\ valid_gender g = true)
  end.
Proof.
  destruct (valid_gender g) eqn:Hg.
  - pose proof (calculate_bmr_overflow_only w h a g wd Hg) as Ho.
    pose proof (calculate_bmr_returns_float w h a g wd) as Hf.
    destruct (fst (calculate_bmr w h a g wd)) as [v|e].
    + split; [now apply Hf | reflexivity].
    + right. split; [exact Ho | reflexivity].
  - rewrite calculate_bmr_rejected by assumption. left. now split.
Qed.

Lemma calculate_tdee_no_KeyError (bmr : num) (s : string) (wd : world)
      (k : string) :
  fst (calculate_tdee bmr s wd) <> Raise (KeyError k).
Proof.
  destruct (dict_get (normalize s) (ACTIVITY_FACTORS wd)) as [v|] eqn:Hv.
  - rewrite (calculate_tdee_lookup _ _ _ _ Hv). cbn [fst].
    pose proof (binop_overflow_only Z.mul fmul bmr v) as Ho. fold mul in Ho.
    intros E. rewrite E in Ho. discriminate.
  - rewrite (calculate_tdee_missing _ _ _ Hv). discriminate.
Qed.

(** X2: in every world, whatever the table holds, [calculate_tdee] raises
    its [ValueError], listing the keys the table has then, exactly when
    the normalized level is not a key; on a key nothing but a conversion
    overflow can be raised; and the subscript after the membership test
    never raises [KeyError]. *)
Theorem calculate_tdee_outcomes (bmr : num) (s : string) (wd : world) :
  (dict_mem (normalize s) (ACTIVITY_FACTORS wd) = false ->
   fst (calculate_tdee bmr s wd)
   = Raise (ValueError ("Invalid activity level. Choose from: "
                          ++ join ", " (dict_keys (ACTIVITY_FACTORS wd))))) /\
  (dict_mem (normalize s) (ACTIVITY_FACTORS wd) = true ->
   overflow_only (fst (calculate_tdee bmr s wd))) /\
  (forall k, fst (calculate_tdee bmr s wd) <> Raise (KeyError k)).
Proof.
  unfold dict_mem.
  destruct (dict_get (normalize s) (ACTIVITY_FACTORS wd)) as [v|] eqn:Hv.
  - rewrite (calculate_tdee_lookup _ _ _ _ Hv). cbn [fst].
    pose proof (binop_overflow_only Z.mul fmul bmr v) as Ho. fold mul in Ho.
    split; [discriminate|]. split; [intros _; exact Ho|].
    intros k E. rewrite E in Ho. discriminate.
  - rewrite (calculate_tdee_missing _ _ _ Hv). cbn [fst].
    split; [reflexivity|]. split; discriminate.
Qed.

Lemma calculate_tdee_outcomes_witness :
  fst (calculate_tdee (PyInt (2 ^ 1024)) "sedentary" initial_world)
  = Raise (OverflowError "int too large to convert to float").
Proof.
  pose proof (proj1 (proj2 (calculate_tdee_outcomes
                              (PyInt (2 ^ 1024)) "sedentary" initial_world))
                    eq_refl) as H.
  destruct (fst (calculate_tdee (PyInt (2 ^ 1024)) "sedentary" initial_world))
    eqn:E.
  - vm_compute in E. discriminate.
  - simpl in H. now rewrite H.
Defined.

(** X3: the two functions compose: what [calculate_bmr] returns can be
    handed to [calculate_tdee], which then raises no [OverflowError], and
    returns a float as soon as the level is one of the table. *)
Theorem bmr_feeds_tdee (w h a v : num) (g s : string) (wd : world) :
  table_intact wd ->
  fst (calculate_bmr w h a g wd) = Return v ->
  (forall msg, fst (calculate_tdee v s wd) <> Raise (OverflowError msg)) /\
  (dict_mem (normalize s) (ACTIVITY_FACTORS wd) = true ->
   exists t : float, calculate_tdee v s wd = (Return (PyFloat t), wd)).
Proof.
  intros Hw Hv. apply calculate_bmr_returns_float in Hv.
  destruct v as [n|x]; [discriminate|]. clear Hv.
  unfold dict_mem.
  destruct (dict_get (normalize s) (ACTIVITY_FACTORS wd)) as [f|] eqn:Hf.
  - rewrite (calculate_tdee_lookup _ _ _ _ Hf).
    rewrite Hw in Hf. destruct (activity_factor_shape _ _ Hf) as (mf & -> & _).
    split; [discriminate|]. intros _. eexists. reflexivity.
  - rewrite (calculate_tdee_missing _ _ _ Hf).
    split; discriminate.
Qed.

Lemma bmr_feeds_tdee_witness :
  exists t : float,
    calculate_tdee (PyFloat (decimal 146625 2)) "Moderately Active"
                   initial_world
    = (Return (PyFloat t), initial_world).
Proof.
  apply (bmr_feeds_tdee (PyInt 53) (PyInt 165) (PyInt 20)
                        (PyFloat (decimal 146625 2)) "male"
                        "Moderately Active" initial_world);
    vm_compute; reflexivity.
Defined.

(** *** No trimming *)

Lemma ends_with_append (c : ascii) (x : string) :
  ends_with c (x ++ String c EmptyString) = true.
Proof.
  induction x as [|a x IH]; cbn [append ends_with].
  - apply Ascii.eqb_refl.
  - destruct (x ++ String c EmptyString) eqn:E; [|exact IH].
    destruct x; discriminate.
Qed.

Lemma lower_append (x y : string) : lower (x ++ y) = lower x ++ lower y.
Proof. induction x as [|a x IH]; simpl; [reflexivity | now rewrite IH]. Qed.

Lemma replace_append (o n : ascii) (x y : string) :
  replace o n (x ++ y) = replace o n x ++ replace o n y.
Proof. induction x as [|a x IH]; simpl; [reflexivity | now rewrite IH]. Qed.

Lemma normalize_append (x y : string) :
  normalize (x ++ y) = normalize x ++ normalize y.
Proof. unfold normalize. now rewrite lower_append, replace_append. Qed.

(** A string that ends with [c] is none of the keys that do not. *)
Lemma dict_get_ends_with (c : ascii) (x : string) (d : list (string * num)) :
  forallb (fun kv => negb (ends_with c (fst kv))) d = true ->
  dict_get (x ++ String c EmptyString) d = None.
Proof.
  induction d as [|[k v] d IH]; cbn [forallb dict_get fst]; [reflexivity|].
  intros H. apply andb_true_iff in H. destruct H as [Hk Hd].
  destruct (String.eqb_spec (x ++ String c EmptyString) k) as [E|E].
  - rewrite <- E, ends_with_append in Hk. discriminate.
  - auto.
Qed.

(** A string that starts with an underscore is none of the keys that do
    not. *)
Lemma dict_get_starts_with_underscore (x : string) (d : list (string * num)) :
  forallb (fun kv => match fst kv with
                     | String a _ => negb (Ascii.eqb a underscore)
                     | EmptyString => true end) d = true ->
  dict_get (String underscore x) d = None.
Proof.
  induction d as [|[k v] d IH]; cbn [forallb dict_get fst]; [reflexivity|].
  intros H. apply andb_true_iff in H. destruct H as [Hk Hd].
  destruct (String.eqb_spec (String underscore x) k) as [E|E].
  - rewrite <- E in Hk. discriminate.
  - auto.
Qed.

(** X4: neither function trims its string: a gender or an activity level
    with a space before or after it is rejected, whatever the rest is. *)
Theorem no_trimming (w h a bmr : num) (s : string) (wd : world) :
  table_intact wd ->
  fst (calculate_bmr w h a (" " ++ s) wd)
  = Raise (ValueError "Gender must be 'male' or 'female'.") /\
  fst (calculate_bmr w h a (s ++ " ") wd)
  = Raise (ValueError "Gender must be 'male' or 'female'.") /\
  fst (calculate_tdee bmr (" " ++ s) wd)
  = Raise (ValueError "Invalid activity level. Choose from: sedentary, lightly_active, moderately_active, very_active, super_active") /\
  fst (calculate_tdee bmr (s ++ " ") wd)
  = Raise (ValueError "Invalid activity level. Choose from: sedentary, lightly_active, moderately_active, very_active, super_active").
Proof.
  intros Hw.
  assert (G : valid_gender (s ++ " ") = false).
  { apply not_true_iff_false. rewrite valid_gender_cases, lower_append.
    pose proof (ends_with_append " " (lower s)) as H.
    change (String " " EmptyString) with (lower " ") in H.
    intros [E|E]; rewrite E in H; discriminate. }
  assert (T : dict_get (normalize (s ++ " ")) (ACTIVITY_FACTORS wd) = None).
  { rewrite Hw, normalize_append.
    apply (dict_get_ends_with underscore). reflexivity. }
  assert (T' : dict_get (normalize (" " ++ s)) (ACTIVITY_FACTORS wd) = None).
  { rewrite Hw. apply (dict_get_starts_with_underscore (normalize s)).
    reflexivity. }
  split; [|split; [|split]].
  - now rewrite calculate_bmr_rejected.
  - now rewrite calculate_bmr_rejected.
  - rewrite calculate_tdee_missing by exact T'. now rewrite Hw.
  - rewrite calculate_tdee_missing by exact T. now rewrite Hw.
Qed.

Lemma no_trimming_witness :
  fst (calculate_bmr (PyInt 70) (PyInt 170) (PyInt 30) "male " initial_world)
  = Raise (ValueError "Gender must be 'male' or 'female'.").
Proof.
  apply (no_trimming (PyInt 70) (PyInt 170) (PyInt 30) (PyInt 0) "male"
                     initial_world eq_refl).
Defined.

(** *** The demonstration *)

Lemma demo_bmr :
  fst (calculate_bmr (PyInt 53) (PyInt 165) (PyInt 20) "male" initial_world)
  = Return (PyFloat (decimal 146625 2)).
Proof. vm_compute. reflexivity. Qed.

(** How [main] unfolds in any world: the three opening lines, then the
    call of [calculate_tdee] on the BMR decides. *)
Lemma main_unfold (show : num -> string) (wd : world) :
  main show wd =
  let w3 := {| ACTIVITY_FACTORS := ACTIVITY_FACTORS wd;
               stdout := app (stdout wd) (header_lines show) |} in
  match fst (calculate_tdee (PyFloat (decimal 146625 2)) "lightly_active" w3)
  with
  | Return t =>
      match math_ceil t with
      | Return n =>
          print ("2. Maintenance Calories (TDEE): " ++ of_int n ++ " kcal/day")
                w3
      | Raise (ValueError msg) => print (newline ++ "Error: " ++ msg) w3
      | Raise e => (Raise e, w3)
      end
  | Raise (ValueError msg) => print (newline ++ "Error: " ++ msg) w3
  | Raise e => (Raise e, w3)
  end.
Proof.
  destruct wd as [tbl out].
  unfold main, try_except_ValueError, bind.
  cbn [print ACTIVITY_FACTORS stdout].
  rewrite calculate_bmr_stateless, demo_bmr.
  cbn [print ACTIVITY_FACTORS stdout].
  rewrite calculate_tdee_stateless.
  cbn [ACTIVITY_FACTORS stdout].
  rewrite (calculate_tdee_stateless
             _ _ (Build_world tbl (app out (header_lines show)))).
  cbn [ACTIVITY_FACTORS stdout fst].
  match goal with
  | |- context [app (app (app out ?a) ?b) ?c] =>
      replace (app (app (app out a) b) c) with (app out (header_lines show))
        by (unfold header_lines; rewrite <- !app_assoc; reflexivity)
  end.
  destruct (fst (calculate_tdee (PyFloat (decimal 146625 2)) "lightly_active"
                                (Build_world tbl []))) as [t|e].
  - unfold pure. destruct (math_ceil t) as [n|[msg|msg|k]]; reflexivity.
  - destruct e; reflexivity.
Qed.

(** X5: in every world and for every rendering of the BMR, the
    demonstration leaves the table as it is, prints its three opening
    lines and at most one more after what was printed before, and lets no
    [ValueError] out: it ends normally or with an [OverflowError]. *)
Theorem main_invariants (show : num -> string) (wd : world) :
  ACTIVITY_FACTORS (snd (main show wd)) = ACTIVITY_FACTORS wd /\
  (exists rest : list string,
      stdout (snd (main show wd))
      = app (stdout wd) (app (header_lines show) rest)
      /\ (List.length rest <= 1)%nat) /\
  (fst (main show wd) = Return tt \/
   exists msg, fst (main show wd) = Raise (OverflowError msg)).
Proof.
  rewrite main_unfold. cbv zeta.
  set (w3 := {| ACTIVITY_FACTORS := ACTIVITY_FACTORS wd;
                stdout := app (stdout wd) (header_lines show) |}).
  pose proof (calculate_tdee_no_KeyError (PyFloat (decimal 146625 2))
                                         "lightly_active" w3) as HK.
  destruct (fst (calculate_tdee (PyFloat (decimal 146625 2))
                                "lightly_active" w3)) as [t|[msg|msg|k]].
  - assert (HC : forall k, math_ceil t <> Raise (KeyError k)).
    { destruct t as [n|[s|s| |s m e]]; discriminate. }
    destruct (math_ceil t) as [n|[msg|msg|k]];
      unfold print, w3; cbn [fst snd ACTIVITY_FACTORS stdout].
    + split; [reflexivity|]. split; [|now left].
      eexists [_]. rewrite <- app_assoc.
      split; [reflexivity | cbn [List.length]; lia].
    + split; [reflexivity|]. split; [|now left].
      eexists [_]. rewrite <- app_assoc.
      split; [reflexivity | cbn [List.length]; lia].
    + split; [reflexivity|]. split; [|right; now exists msg].
      exists []. rewrite app_nil_r. split; [reflexivity | cbn [List.length]; lia].
    + now elim (HC k).
  - unfold print, w3; cbn [fst snd ACTIVITY_FACTORS stdout].
    split; [reflexivity|]. split; [|now left].
    eexists [_]. rewrite <- app_assoc.
    split; [reflexivity | cbn [List.length]; lia].
  - unfold w3; cbn [fst snd ACTIVITY_FACTORS stdout].
    split; [reflexivity|]. split; [|right; now exists msg].
    exists []. rewrite app_nil_r. split; [reflexivity | cbn [List.length]; lia].
  - now elim (HK k).
Qed.

(** X6: when the table has no ["lightly_active"] key, the demonstration
    has already printed the BMR line when the error comes; it then prints
    the error message with the keys the table has, and ends normally. *)
Theorem main_reports_missing_level (show : num -> string) (wd : world) :
  dict_mem "lightly_active" (ACTIVITY_FACTORS wd) = false ->
  main show wd
  = (Return tt,
     {| ACTIVITY_FACTORS := ACTIVITY_FACTORS wd;
        stdout :=
          app (stdout wd)
              (app (header_lines show)
                   [newline ++ "Error: Invalid activity level. Choose from: "
                      ++ join ", " (dict_keys (ACTIVITY_FACTORS wd))]) |}).
Proof.
  intros H. rewrite main_unfold. cbv zeta.
  unfold dict_mem in H.
  destruct (dict_get "lightly_active" (ACTIVITY_FACTORS wd)) eqn:Hg;
    [discriminate|].
  rewrite calculate_tdee_missing by exact Hg.
  unfold print; cbn [fst snd ACTIVITY_FACTORS stdout].
  now rewrite <- app_assoc.
Qed.

Lemma main_reports_missing_level_witness :
  stdout (snd (main (fun _ => "1466.25")
                    {| ACTIVITY_FACTORS :=
                         [("sedentary", PyFloat (decimal 12 1))];
                       stdout := [] |}))
  = app (header_lines (fun _ => "1466.25"))
        [newline ++ "Error: Invalid activity level. Choose from: sedentary"].
Proof.
  rewrite (main_reports_missing_level
             (fun _ => "1466.25")
             {| ACTIVITY_FACTORS :=
                  [("sedentary", PyFloat (decimal 12 1))];
                stdout := [] |} eq_refl).
  reflexivity.
Defined.

(** *** Exact results, NaN, and negative numbers *)

(** On ints in range the result is the float of the quarter-integer the
    formula gives. *)
Lemma calculate_bmr_on_ints (w h a : Z) (g : string) (wd : world) :
  Z.abs w < 2 ^ 45 -> Z.abs h < 2 ^ 45 -> Z.abs a < 2 ^ 45 ->
  valid_gender g = true ->
  calculate_bmr (PyInt w) (PyInt h) (PyInt a) g wd
  = (Return (PyFloat
               (quarters (40 * w + 25 * h - 20 * a
                          + (if String.eqb (lower g) "male"
                             then 20 else -644)))), wd).
Proof.
  intros Hw Hh Ha Hg.
  assert (B : 2 ^ 53 = 256 * 2 ^ 45) by reflexivity.
  assert (B' : 2 ^ 51 = 64 * 2 ^ 45) by reflexivity.
  unfold calculate_bmr. fold (valid_gender g). rewrite Hg.
  unfold bind, pure, mul, add, sub; simpl negb; cbv iota.
  change (binop Z.mul fmul (PyInt 10) (PyInt w))
    with (Return (PyInt (10 * w))).
  cbv iota beta.
  rewrite binop_float_int by (apply convertible_below; lia).
  rewrite binop_int_float by (apply convertible_below; lia).
  change (binop Z.mul fmul (PyInt 5) (PyInt a))
    with (Return (PyInt (5 * a))).
  cbv iota beta.
  rewrite binop_float_int by (apply convertible_below; lia).
  rewrite fmul_6_25 by lia.
  rewrite !round_int_quarters.
  rewrite fadd_quarters by lia.
  rewrite fsub_quarters by lia.
  destruct (String.eqb (lower g) "male").
  - rewrite binop_float_int by reflexivity.
    rewrite round_int_quarters, fadd_quarters by lia.
    cbv beta iota delta [negb]. do 3 f_equal. f_equal. lia.
  - rewrite binop_float_int by reflexivity.
    rewrite round_int_quarters, fsub_quarters by lia.
    cbv beta iota delta [negb]. do 3 f_equal. f_equal. lia.
Qed.

(** X7: on int weight, height and age below [2^45] in absolute value,
    [calculate_bmr] makes no rounding error: the float it returns is
    exactly [10 w + 6.25 h - 5 a + 5] for ['male'] and
    [10 w + 6.25 h - 5 a - 161] for ['female']. *)
Theorem calculate_bmr_exact_on_ints (w h a : Z) (g : string) (wd : world) :
  Z.abs w < 2 ^ 45 -> Z.abs h < 2 ^ 45 -> Z.abs a < 2 ^ 45 ->
  valid_gender g = true ->
  exists bmr : float,
    calculate_bmr (PyInt w) (PyInt h) (PyInt a) g wd
    = (Return (PyFloat bmr), wd) /\
    exactly bmr (40 * w + 25 * h - 20 * a
                 + (if String.eqb (lower g) "male" then 20 else -644)) 4.
Proof.
  intros Hw Hh Ha Hg.
  assert (B : 2 ^ 53 = 256 * 2 ^ 45) by reflexivity.
  eexists. split; [now apply calculate_bmr_on_ints|].
  apply exactly_quarters. destruct (String.eqb (lower g) "male"); lia.
Qed.

Lemma calculate_bmr_exact_on_ints_witness :
  exists bmr : float,
    calculate_bmr (PyInt 70) (PyInt 170) (PyInt 30) "Female" initial_world
    = (Return (PyFloat bmr), initial_world) /\
    exactly bmr 5806 4.
Proof.
  apply (calculate_bmr_exact_on_ints 70 170 30 "Female" initial_world);
    reflexivity.
Defined.

Lemma fmul_nan_r (x : float) : fmul x S754_nan = S754_nan.
Proof. destruct x; reflexivity. Qed.

Lemma fadd_nan_l (y : float) : fadd S754_nan y = S754_nan.
Proof. reflexivity. Qed.

Lemma fadd_nan_r (x : float) : fadd x S754_nan = S754_nan.
Proof. destruct x; reflexivity. Qed.

Lemma fsub_nan_l (y : float) : fsub S754_nan y = S754_nan.
Proof. reflexivity. Qed.

(** X8: a NaN is no error: a NaN weight or height gives a NaN BMR, and
    a NaN BMR gives a NaN TDEE. *)
Theorem nan_goes_through (w h : float) (a : Z) (g s : string) (wd : world) :
  table_intact wd ->
  valid_gender g = true ->
  convertible (5 * a) = true ->
  dict_mem (normalize s) (ACTIVITY_FACTORS wd) = true ->
  w = S754_nan \/ h = S754_nan ->
  calculate_bmr (PyFloat w) (PyFloat h) (PyInt a) g wd
  = (Return (PyFloat S754_nan), wd) /\
  calculate_tdee (PyFloat S754_nan) s wd = (Return (PyFloat S754_nan), wd).
Proof.
  intros Hw Hg Ha Hs Hnan. split.
  - rewrite calculate_bmr_accepted by assumption.
    assert (B : base_formula w h a = S754_nan).
    { unfold base_formula. destruct Hnan as [-> | ->].
      - now rewrite fmul_nan_r, fadd_nan_l, fsub_nan_l.
      - now rewrite fmul_nan_r, fadd_nan_r, fsub_nan_l. }
    rewrite B. now destruct (String.eqb (lower g) "male").
  - unfold dict_mem in Hs.
    destruct (dict_get (normalize s) (ACTIVITY_FACTORS wd)) as [v|] eqn:Hv;
      [|discriminate].
    rewrite (calculate_tdee_lookup _ _ _ _ Hv). rewrite Hw in Hv.
    destruct (activity_factor_shape _ _ Hv) as (mf & -> & _). reflexivity.
Qed.

Lemma nan_goes_through_witness :
  calculate_bmr (PyFloat S754_nan) (PyFloat (decimal 165 0)) (PyInt 20)
                "male" initial_world
  = (Return (PyFloat S754_nan), initial_world) /\
  calculate_tdee (PyFloat S754_nan) "sedentary" initial_world
  = (Return (PyFloat S754_nan), initial_world).
Proof.
  apply (nan_goes_through S754_nan (decimal 165 0) 20 "male" "sedentary"
                          initial_world); try reflexivity.
  now left.
Defined.

(** Rounding does not look at the sign. *)
Lemma binary_round_aux_opp (s : bool) (m e : Z) (l : location) :
  binary_round_aux prec emax (negb s) m e l
  = SFopp (binary_round_aux prec emax s m e l).
Proof.
  unfold binary_round_aux.
  destruct (shr_fexp prec emax m e l) as [mrs1 e1].
  destruct (shr_fexp prec emax _ e1 loc_Exact) as [mrs2 e2].
  destruct (shr_m mrs2); try reflexivity.
  destruct (e2 <=? emax - prec); reflexivity.
Qed.

Lemma fmul_opp_l (x : float) (mf : positive) (ef : Z) :
  fmul (SFopp x) (S754_finite false mf ef)
  = SFopp (fmul x (S754_finite false mf ef)).
Proof.
  destruct x as [s|s| |s m e]; try reflexivity.
  - cbn [SFopp fmul SFmul]. now destruct s.
  - cbn [SFopp fmul SFmul]. now destruct s.
  - unfold fmul. cbn [SFopp SFmul].
    rewrite !xorb_false_r. apply binary_round_aux_opp.
Qed.

Lemma SFcompare_opp (a b : float) :
  SFcompare (SFopp a) (SFopp b) = SFcompare b a.
Proof.
  destruct a as [[]|[]| |[] ma ea], b as [[]|[]| |[] mb eb];
    cbn [SFopp SFcompare negb]; try reflexivity.
  - rewrite (Z.compare_antisym ea eb).
    destruct (ea ?= eb); cbn [CompOpp]; try reflexivity.
    f_equal. exact (Pos.compare_antisym mb ma).
  - rewrite (Z.compare_antisym ea eb).
    destruct (ea ?= eb); cbn [CompOpp]; try reflexivity.
    f_equal. symmetry. exact (Pos.compare_antisym ma mb).
Qed.

(** X9: [calculate_tdee] is odd in bmr: the TDEE of the opposite is the
    opposite of the TDEE; so for a bmr that compares as at most zero,
    which [calculate_bmr] can return since it checks no bound, the TDEE
    is at most the bmr. *)
Theorem calculate_tdee_odd (bmr : float) (s : string) (wd : world) :
  table_intact wd ->
  dict_mem (normalize s) (ACTIVITY_FACTORS wd) = true ->
  exists tdee : float,
    calculate_tdee (PyFloat bmr) s wd = (Return (PyFloat tdee), wd) /\
    calculate_tdee (PyFloat (SFopp bmr)) s wd
    = (Return (PyFloat (SFopp tdee)), wd) /\
    (well_formed bmr = true -> fle bmr zero = true -> fle tdee bmr = true).
Proof.
  intros Hw Hs. unfold dict_mem in Hs.
  destruct (dict_get (normalize s) (ACTIVITY_FACTORS wd)) as [v|] eqn:Hv;
    [|discriminate].
  rewrite !(calculate_tdee_lookup _ _ _ _ Hv). rewrite Hw in Hv.
  destruct (activity_factor_shape _ _ Hv) as (mf & -> & Hmf).
  exists (fmul bmr (S754_finite false mf (-52))).
  split; [reflexivity|]. split.
  - unfold mul. rewrite binop_float_float. now rewrite fmul_opp_l.
  - intros Hwf Hneg.
    assert (H : fle (SFopp bmr)
                    (fmul (SFopp bmr) (S754_finite false mf (-52))) = true).
    { apply fmul_factor_ge; [| |exact Hmf].
      - now destruct bmr.
      - unfold fle, SFleb in *.
        change zero with (SFopp (S754_zero true)).
        rewrite SFcompare_opp. now destruct bmr. }
    rewrite fmul_opp_l in H. unfold fle, SFleb in *.
    now rewrite SFcompare_opp in H.
Qed.

Lemma calculate_tdee_odd_witness :
  exists tdee : float,
    calculate_tdee (PyFloat (decimal (-161) 0)) "sedentary" initial_world
    = (Return (PyFloat tdee), initial_world) /\
    fle tdee (decimal (-161) 0) = true.
Proof.
  destruct (calculate_tdee_odd (decimal (-161) 0) "sedentary" initial_world
                               eq_refl eq_refl) as (tdee & E & _ & H).
  exists tdee. split; [exact E|]. apply H; reflexivity.
Defined.

(** *** Order: more activity, more calories *)

(** What a float that compares as at least zero is. *)
Lemma fle_zero_cases (x : float) :
  fle zero x = true ->
  (exists s, x = S754_zero s) \/ x = S754_infinity false \/
  (exists m e, x = S754_finite false m e).
Proof.
  destruct x as [s|[]| |[] m e]; try discriminate; eauto.
Qed.

Lemma fmul_nonneg (x : float) (mf : positive) :
  fle zero x = true -> Z.pos (digits2_pos mf) = 53 ->
  fle zero (fmul x (S754_finite false mf (-52))) = true.
Proof.
  intros H0 Hf.
  destruct (fle_zero_cases x H0) as [[s ->]|[->|(m & e & ->)]];
    try reflexivity.
  rewrite fmul_binary_round by assumption. apply binary_round_range.
Qed.

Lemma fle_opp_nonneg (u v : float) :
  fle zero u = true -> fle zero v = true -> fle (SFopp u) v = true.
Proof.
  intros Hu Hv.
  destruct (fle_zero_cases u Hu) as [[s ->]|[->|(m & e & ->)]];
    destruct (fle_zero_cases v Hv) as [[s' ->]|[->|(m' & e' & ->)]];
    reflexivity.
Qed.

Lemma fle_zero_opp (x : float) :
  fle x zero = true -> fle zero (SFopp x) = true.
Proof. destruct x as [s|[]| |[] m e]; try discriminate; reflexivity. Qed.

Lemma fle_total_zero (x y : float) :
  fle x y = true -> fle zero x = false -> fle x zero = true.
Proof.
  destruct x as [s|[]| |[] m e]; try discriminate; try reflexivity.
Qed.

Lemma well_formed_opp (x : float) : well_formed (SFopp x) = well_formed x.
Proof. now destruct x. Qed.

Lemma fle_opp (a b : float) : fle (SFopp a) (SFopp b) = fle b a.
Proof. unfold fle, SFleb. now rewrite SFcompare_opp. Qed.

Lemma SFopp_involutive (x : float) : SFopp (SFopp x) = x.
Proof. destruct x as [[]|[]| |[] m e]; reflexivity. Qed.

(** Multiplication by a factor in [[1, 2)] is monotone on all floats. *)
Lemma fmul_factor_mono (x1 x2 : float) (mf : positive) :
  well_formed x1 = true -> well_formed x2 = true ->
  fle x1 x2 = true -> Z.pos (digits2_pos mf) = 53 ->
  fle (fmul x1 (S754_finite false mf (-52)))
      (fmul x2 (S754_finite false mf (-52))) = true.
Proof.
  intros W1 W2 H Hf.
  destruct (fle zero x1) eqn:P1.
  - apply fmul_mono; auto; lia.
  - pose proof (fle_zero_opp _ (fle_total_zero _ _ H P1)) as N1.
    rewrite <- (SFopp_involutive x1), (fmul_opp_l (SFopp x1)).
    destruct (fle zero x2) eqn:P2.
    + apply fle_opp_nonneg; apply fmul_nonneg; assumption.
    + assert (Q2 : fle x2 zero = true).
      { destruct x1 as [s|[]| |[] m e], x2 as [s'|[]| |[] m' e'];
          try discriminate; reflexivity. }
      pose proof (fle_zero_opp _ Q2) as N2.
      rewrite <- (SFopp_involutive x2), (fmul_opp_l (SFopp x2)), fle_opp.
      apply fmul_mono; try assumption; try lia.
      * now rewrite well_formed_opp.
      * now rewrite well_formed_opp.
      * now rewrite fle_opp.
Qed.

Lemma fle_refl_nonneg (x : float) :
  well_formed x = true -> fle zero x = true -> fle x x = true.
Proof.
  intros _ H0.
  destruct (fle_zero_cases x H0) as [[s ->]|[->|(m & e & ->)]];
    try reflexivity.
  apply finite_le. right. split; lia.
Qed.

(** X10: for a bmr that compares as at least zero, the TDEE does not
    decrease along the table: sedentary, lightly active, moderately
    active, very active, super active. *)
Theorem calculate_tdee_grows_with_level (bmr : float) (wd : world) :
  table_intact wd ->
  well_formed bmr = true ->
  fle zero bmr = true ->
  exists t1 t2 t3 t4 t5 : float,
    calculate_tdee (PyFloat bmr) "sedentary" wd
    = (Return (PyFloat t1), wd) /\
    calculate_tdee (PyFloat bmr) "lightly_active" wd
    = (Return (PyFloat t2), wd) /\
    calculate_tdee (PyFloat bmr) "moderately_active" wd
    = (Return (PyFloat t3), wd) /\
    calculate_tdee (PyFloat bmr) "very_active" wd
    = (Return (PyFloat t4), wd) /\
    calculate_tdee (PyFloat bmr) "super_active" wd
    = (Return (PyFloat t5), wd) /\
    fle t1 t2 = true /\ fle t2 t3 = true /\
    fle t3 t4 = true /\ fle t4 t5 = true.
Proof.
  intros Hw Hwf H0.
  pose proof (fle_refl_nonneg bmr Hwf H0) as Hr.
  exists (fmul bmr (decimal 12 1)), (fmul bmr (decimal 1375 3)),
         (fmul bmr (decimal 155 2)), (fmul bmr (decimal 1725 3)),
         (fmul bmr (decimal 19 1)).
  assert (L : forall key f,
             dict_get key (ACTIVITY_FACTORS initial_world) = Some (PyFloat f) ->
             normalize key = key ->
             calculate_tdee (PyFloat bmr) key wd
             = (Return (PyFloat (fmul bmr f)), wd)).
  { intros key f Hk Hn.
    rewrite (calculate_tdee_lookup _ _ _ (PyFloat f)); [reflexivity|].
    now rewrite Hn, Hw. }
  repeat (split; [apply L; reflexivity|]).
  rewrite literal_1_2, literal_1_375, literal_1_55, literal_1_725,
    literal_1_9.
  repeat split; apply fmul_mono; auto; try reflexivity; lia.
Qed.

Lemma calculate_tdee_grows_with_level_witness :
  exists t1 t5 : float,
    calculate_tdee (PyFloat (decimal 146625 2)) "sedentary" initial_world
    = (Return (PyFloat t1), initial_world) /\
    calculate_tdee (PyFloat (decimal 146625 2)) "super_active" initial_world
    = (Return (PyFloat t5), initial_world).
Proof.
  destruct (calculate_tdee_grows_with_level (decimal 146625 2) initial_world
                                            eq_refl eq_refl eq_refl)
    as (t1 & t2 & t3 & t4 & t5 & E1 & _ & _ & _ & E5 & _).
  exists t1, t5. now split.
Defined.

(** X11: [calculate_tdee] is monotone in bmr, over all floats of either
    sign and the infinities: a bmr that compares as at most another gives
    a TDEE that compares as at most the other's. *)
Theorem calculate_tdee_monotone (b1 b2 : float) (s : string) (wd : world) :
  table_intact wd ->
  well_formed b1 = true -> well_formed b2 = true ->
  fle b1 b2 = true ->
  dict_mem (normalize s) (ACTIVITY_FACTORS wd) = true ->
  exists t1 t2 : float,
    calculate_tdee (PyFloat b1) s wd = (Return (PyFloat t1), wd) /\
    calculate_tdee (PyFloat b2) s wd = (Return (PyFloat t2), wd) /\
    fle t1 t2 = true.
Proof.
  intros Hw W1 W2 H Hs. unfold dict_mem in Hs.
  destruct (dict_get (normalize s) (ACTIVITY_FACTORS wd)) as [v|] eqn:Hv;
    [|discriminate].
  rewrite !(calculate_tdee_lookup _ _ _ _ Hv). rewrite Hw in Hv.
  destruct (activity_factor_shape _ _ Hv) as (mf & -> & Hmf).
  exists (fmul b1 (S754_finite false mf (-52))),
         (fmul b2 (S754_finite false mf (-52))).
  split; [reflexivity|]. split; [reflexivity|].
  apply fmul_factor_mono; try assumption.
  now rewrite Hmf.
Qed.

Lemma calculate_tdee_monotone_witness :
  exists t1 t2 : float,
    calculate_tdee (PyFloat (decimal (-161) 0)) "Very Active" initial_world
    = (Return (PyFloat t1), initial_world) /\
    calculate_tdee (PyFloat (decimal 146625 2)) "Very Active" initial_world
    = (Return (PyFloat t2), initial_world) /\
    fle t1 t2 = true.
Proof.
  apply (calculate_tdee_monotone (decimal (-161) 0) (decimal 146625 2)
                                 "Very Active" initial_world);
    reflexivity.
Defined.

Lemma binary_round_opp (p : positive) (c : Z) :
  binary_round 53 1024 true p c = SFopp (binary_round 53 1024 false p c).
Proof.
  unfold binary_round. destruct (shl_align p c _) as [mz ez].
  exact (binary_round_aux_opp false (Z.pos mz) ez loc_Exact).
Qed.

(** The floats nearest to quarter-integers come in the order of the
    quarter-integers. *)
Lemma quarters_mono (n1 n2 : Z) :
  n1 <= n2 -> fle (quarters n1) (quarters n2) = true.
Proof.
  intros H. unfold quarters, binary_normalize, prec, emax.
  destruct n1 as [|p1|p1], n2 as [|p2|p2]; try lia; try reflexivity.
  - apply binary_round_range.
  - now apply binary_round_mono.
  - rewrite binary_round_opp. apply fle_opp_nonneg; [|reflexivity].
    apply binary_round_range.
  - rewrite binary_round_opp.
    apply fle_opp_nonneg; apply binary_round_range.
  - rewrite !binary_round_opp, fle_opp. apply binary_round_mono. lia.
Qed.

(** X12: on ints in range, the BMR follows the formula's order: more
    weight, more height or less age never gives a smaller result. *)
Theorem calculate_bmr_monotone_on_ints
        (w1 w2 h1 h2 a1 a2 : Z) (g : string) (wd : world) :
  Z.abs w1 < 2 ^ 45 -> Z.abs w2 < 2 ^ 45 ->
  Z.abs h1 < 2 ^ 45 -> Z.abs h2 < 2 ^ 45 ->
  Z.abs a1 < 2 ^ 45 -> Z.abs a2 < 2 ^ 45 ->
  valid_gender g = true ->
  w1 <= w2 -> h1 <= h2 -> a2 <= a1 ->
  exists b1 b2 : float,
    calculate_bmr (PyInt w1) (PyInt h1) (PyInt a1) g wd
    = (Return (PyFloat b1), wd) /\
    calculate_bmr (PyInt w2) (PyInt h2) (PyInt a2) g wd
    = (Return (PyFloat b2), wd) /\
    fle b1 b2 = true.
Proof.
  intros. eexists. eexists.
  split; [now apply calculate_bmr_on_ints|].
  split; [now apply calculate_bmr_on_ints|].
  apply quarters_mono. lia.
Qed.

Lemma calculate_bmr_monotone_on_ints_witness :
  exists b1 b2 : float,
    calculate_bmr (PyInt 53) (PyInt 165) (PyInt 20) "male" initial_world
    = (Return (PyFloat b1), initial_world) /\
    calculate_bmr (PyInt 54) (PyInt 165) (PyInt 19) "male" initial_world
    = (Return (PyFloat b2), initial_world) /\
    fle b1 b2 = true.
Proof.
  apply (calculate_bmr_monotone_on_ints 53 54 165 165 20 19 "male"
                                        initial_world);
    try reflexivity; lia.
Defined.

(** X13: on ints in range, the result for ['male'] is above the result
    for ['female'], and their float difference is exactly 166. *)
Theorem male_above_female_on_ints (w h a : Z) (wd : world) :
  Z.abs w < 2 ^ 45 -> Z.abs h < 2 ^ 45 -> Z.abs a < 2 ^ 45 ->
  exists bm bf : float,
    calculate_bmr (PyInt w) (PyInt h) (PyInt a) "male" wd
    = (Return (PyFloat bm), wd) /\
    calculate_bmr (PyInt w) (PyInt h) (PyInt a) "female" wd
    = (Return (PyFloat bf), wd) /\
    fle bf bm = true /\
    fsub bm bf = round_int 166.
Proof.
  intros Hw Hh Ha.
  assert (B : 2 ^ 53 = 256 * 2 ^ 45) by reflexivity.
  eexists. eexists.
  split; [now apply calculate_bmr_on_ints|].
  split; [now apply calculate_bmr_on_ints|].
  change (lower "male" =? "male")%string with true.
  change (lower "female" =? "male")%string with false. cbv iota.
  split.
  - apply quarters_mono. lia.
  - rewrite fsub_quarters, round_int_quarters by lia. f_equal. lia.
Qed.

Lemma male_above_female_on_ints_witness :
  exists bm bf : float,
    calculate_bmr (PyInt 70) (PyInt 170) (PyInt 30) "male" initial_world
    = (Return (PyFloat bm), initial_world) /\
    calculate_bmr (PyInt 70) (PyInt 170) (PyInt 30) "female" initial_world
    = (Return (PyFloat bf), initial_world) /\
    fle bf bm = true /\
    fsub bm bf = round_int 166.
Proof.
  apply (male_above_female_on_ints 70 170 30 initial_world); reflexivity.
Defined.

End CalculatorMore.
